(** * Kubernetes MCP server: tool dispatch and response normalisation

    A shallow embedding of [src/MCP/kubernetes-server/src/index.ts]: the
    [CallToolRequestSchema] handler of [setupToolHandlers] and the thirteen
    private methods it dispatches to.

    The handlers work on untyped JavaScript data ([args: any], upstream
    responses cast to [any]), so the embedding starts with a small model of
    JavaScript values and of the few language operations the handlers use
    (property reads, [?.], [||], [===], [Array.prototype.map] and [find],
    [Object.keys] / [Object.entries], [String.prototype.startsWith] and
    [replace], template literals, [JSON.stringify (v, null, 2)]).

    Upstream calls ([this.k8sApi.core.*], [this.k8sApi.apps.*]) are effects:
    every handler runs in a monad that records the calls made, in order, and
    that carries JavaScript exceptions next to that record. *)

From Stdlib Require Import String Ascii List ZArith Bool Arith Lia DecimalString.
Import ListNotations.
Set Warnings "-register-all".
Open Scope string_scope.

(* ===================================================================== *)
(** * JavaScript values                                                   *)
(* ===================================================================== *)

Module Js.

(** Plain data as it travels through the handlers.  An object is the list
    of its own enumerable string-keyed properties in enumeration order; a
    string has one [ascii] per code unit; numbers are the integers (that is
    what the Kubernetes objects read here carry: ports, replica counts). *)
Inductive JsValue : Type :=
| JUndefined
| JNull
| JBool (b : bool)
| JNum (n : Z)
| JStr (s : string)
| JArr (elems : list JsValue)
| JObj (props : list (string * JsValue)).

(** ToBoolean. *)
Definition truthy (v : JsValue) : bool :=
  match v with
  | JUndefined | JNull => false
  | JBool b => b
  | JNum n => negb (n =? 0)%Z
  | JStr s => negb (s =? "")
  | JArr _ | JObj _ => true
  end.

(** [v == null]: the values on which a property read throws and on which
    [?.] short-circuits. *)
Definition nullish (v : JsValue) : bool :=
  match v with
  | JUndefined | JNull => true
  | _ => false
  end.

(** [a || b] *)
Definition or_else (a b : JsValue) : JsValue :=
  if truthy a then a else b.

(** [v === 'lit'] for a string literal. *)
Definition strict_eq_str (v : JsValue) (lit : string) : bool :=
  match v with
  | JStr s => s =? lit
  | _ => false
  end.

Fixpoint lookup (k : string) (ps : list (string * JsValue)) : JsValue :=
  match ps with
  | [] => JUndefined
  | (k', v) :: rest => if k =? k' then v else lookup k rest
  end.

(** The value of [v.k] when [v] is not nullish.  None of the property names
    the handlers read ([metadata], [items], [name], ...) is a built-in
    property of a primitive or of an array, so only objects answer. *)
Definition prop (v : JsValue) (k : string) : JsValue :=
  match v with
  | JObj ps => lookup k ps
  | _ => JUndefined
  end.

(** [v?.k] *)
Definition opt (v : JsValue) (k : string) : JsValue :=
  if nullish v then JUndefined else prop v k.

(** ** Strings *)

Definition dquote : string := String "034"%char "".
Definition newline : string := String "010"%char "".
Definition backslash : string := String "092"%char "".

Definition string_of_nat (n : nat) : string :=
  NilZero.string_of_uint (Nat.to_uint n).

(** Number::toString for an integer. *)
Definition Number_toString (n : Z) : string :=
  NilZero.string_of_int (Z.to_int n).

Fixpoint drop (n : nat) (s : string) : string :=
  match n, s with
  | O, _ => s
  | S n', String _ s' => drop n' s'
  | S _, EmptyString => EmptyString
  end.

(** [s.startsWith(p)] *)
Definition startsWith (s p : string) : bool := prefix p s.

(** [s.replace(pat, rep)] for a string pattern and a replacement without
    [$] patterns: the first occurrence of [pat] is replaced. *)
Fixpoint replace (s pat rep : string) : string :=
  if prefix pat s then rep ++ drop (String.length pat) s
  else match s with
       | EmptyString => EmptyString
       | String c s' => String c (replace s' pat rep)
       end.

(** [hay.includes(needle)] *)
Fixpoint includes (hay needle : string) : bool :=
  if prefix needle hay then true
  else match hay with
       | EmptyString => false
       | String _ hay' => includes hay' needle
       end.

Fixpoint chars (s : string) : list string :=
  match s with
  | EmptyString => []
  | String c s' => String c "" :: chars s'
  end.

(** ** ToString, as applied by [String(v)] and by template literals *)

Fixpoint ToString (v : JsValue) : string :=
  match v with
  | JUndefined => "undefined"
  | JNull => "null"
  | JBool true => "true"
  | JBool false => "false"
  | JNum n => Number_toString n
  | JStr s => s
  | JArr xs =>
      String.concat ","
        ((fix each (l : list JsValue) : list string :=
            match l with
            | [] => []
            | x :: r => (if nullish x then "" else ToString x) :: each r
            end) xs)
  | JObj _ => "[object Object]"
  end.

(** ** Own enumerable properties *)

Definition indexed {A} (l : list A) : list (string * A) :=
  combine (map string_of_nat (seq 0 (length l))) l.

(** The entries [Object.entries] enumerates for a value that is not
    nullish: an object's properties, an array's or a string's indices. *)
Definition own_entries (v : JsValue) : list (string * JsValue) :=
  match v with
  | JObj ps => ps
  | JArr xs => indexed xs
  | JStr s => indexed (map JStr (chars s))
  | _ => []
  end.

Definition own_keys (v : JsValue) : list string := map fst (own_entries v).

(** ** JSON.stringify (value, null, 2) *)

Definition hex_digit (n : nat) : string :=
  String (ascii_of_nat (if (n <? 10)%nat then 48 + n else 87 + n)) "".

(** QuoteJSONString, one code unit at a time. *)
Definition quote_code_unit (c : ascii) : string :=
  let n := nat_of_ascii c in
  if (n =? 8)%nat then backslash ++ "b"
  else if (n =? 9)%nat then backslash ++ "t"
  else if (n =? 10)%nat then backslash ++ "n"
  else if (n =? 12)%nat then backslash ++ "f"
  else if (n =? 13)%nat then backslash ++ "r"
  else if (n =? 34)%nat then backslash ++ dquote
  else if (n =? 92)%nat then backslash ++ backslash
  else if (n <? 32)%nat then backslash ++ "u00" ++ hex_digit (n / 16) ++ hex_digit (n mod 16)
  else String c "".

Fixpoint quote_body (s : string) : string :=
  match s with
  | EmptyString => EmptyString
  | String c s' => quote_code_unit c ++ quote_body s'
  end.

Definition QuoteJSONString (s : string) : string :=
  dquote ++ quote_body s ++ dquote.

Definition gap : string := "  ".

(** SerializeJSONProperty with the indentation reached so far; [None] is
    JavaScript's [undefined] (the property is left out of an object and
    printed as [null] in an array). *)
Fixpoint SerializeJSONProperty (indent : string) (v : JsValue) : option string :=
  match v with
  | JUndefined => None
  | JNull => Some "null"
  | JBool true => Some "true"
  | JBool false => Some "false"
  | JNum n => Some (Number_toString n)
  | JStr s => Some (QuoteJSONString s)
  | JArr xs =>
      let inner := indent ++ gap in
      let partial :=
        (fix each (l : list JsValue) : list string :=
           match l with
           | [] => []
           | x :: r =>
               match SerializeJSONProperty inner x with
               | Some s => s
               | None => "null"
               end :: each r
           end) xs in
      match partial with
      | [] => Some "[]"
      | _ => Some ("[" ++ newline ++ inner
                   ++ String.concat ("," ++ newline ++ inner) partial
                   ++ newline ++ indent ++ "]")
      end
  | JObj ps =>
      let inner := indent ++ gap in
      let partial :=
        (fix each (l : list (string * JsValue)) : list string :=
           match l with
           | [] => []
           | (k, x) :: r =>
               match SerializeJSONProperty inner x with
               | Some s => (QuoteJSONString k ++ ": " ++ s) :: each r
               | None => each r
               end
           end) ps in
      match partial with
      | [] => Some "{}"
      | _ => Some ("{" ++ newline ++ inner
                   ++ String.concat ("," ++ newline ++ inner) partial
                   ++ newline ++ indent ++ "}")
      end
  end.

(** [JSON.stringify (v, null, 2)] as a JavaScript value: a string, or
    [undefined] when [v] is [undefined]. *)
Definition JSON_stringify (v : JsValue) : JsValue :=
  match SerializeJSONProperty "" v with
  | Some s => JStr s
  | None => JUndefined
  end.

End Js.
Export Js.

(* ===================================================================== *)
(** * Exceptions and upstream effects                                     *)
(* ===================================================================== *)

(** What a [catch (error)] clause receives.  The handlers only ask whether
    [error instanceof Error] and then read [error.message]; any other thrown
    value is rendered with [String(error)]. *)
Inductive Thrown : Type :=
| ErrorInstance (message : string)
| NonError (v : JsValue).

(** [error instanceof Error ? error.message : String(error)] *)
Definition error_text (error : Thrown) : string :=
  match error with
  | ErrorInstance message => message
  | NonError v => ToString v
  end.

Inductive Completion (A : Type) : Type :=
| Normal (a : A)
| Throw (e : Thrown).
Arguments Normal {A} a.
Arguments Throw {A} e.

Definition and_then {A B} (c : Completion A) (k : A -> Completion B) : Completion B :=
  match c with
  | Normal a => k a
  | Throw e => Throw e
  end.

Notation "'let!' x ':=' c 'in' k" :=
  (and_then c (fun x => k))
  (at level 10, x name, c at level 100, k at level 200).

(** The read operations of [this.k8sApi] the server refers to
    ([core.*] and [apps.*]; [batch] and [networking] are never called). *)
Inductive ApiMethod : Type :=
| getAPIResources
| listNamespacedPod
| listNamespacedService
| listNamespacedDeployment
| readNamespacedPod
| readNamespacedService
| readNamespacedDeployment
| readNamespacedPodLog
| listNamespace
| listNode
| readNode
| listNamespacedConfigMap
| readNamespacedConfigMap.

(** One upstream call: the method and its positional arguments. *)
Record UpstreamCall : Type := { method : ApiMethod; params : list JsValue }.

Definition Trace : Type := list UpstreamCall.

(** A computation that may call upstream and may throw.  The calls made
    before a [throw] stay on record. *)
Definition M (A : Type) : Type := Trace -> Completion A * Trace.

Definition ret {A} (a : A) : M A := fun t => (Normal a, t).

Definition bind {A B} (m : M A) (k : A -> M B) : M B :=
  fun t =>
    match m t with
    | (Normal a, t') => k a t'
    | (Throw e, t') => (Throw e, t')
    end.

Definition throw {A} (e : Thrown) : M A := fun t => (Throw e, t).

Definition lift {A} (c : Completion A) : M A := fun t => (c, t).

(** [try { body } catch (error) { handler }] *)
Definition try_catch {A} (body : M A) (handler : Thrown -> M A) : M A :=
  fun t =>
    match body t with
    | (Normal a, t') => (Normal a, t')
    | (Throw e, t') => handler e t'
    end.

Notation "x <- c ;; k" := (bind c (fun x => k))
  (at level 61, c at next level, right associativity).

(** [this.kc]: the two reads of the loaded kubeconfig. *)
Record KubeConfig : Type :=
  { getCurrentContext : string;
    getCluster : string -> JsValue }.

(** The instance state the handlers read: the API clients, as the answer
    (a resolved value or a rejection) each call gets, and the kubeconfig.
    No handler assigns to either field. *)
Record KubernetesServer : Type :=
  { k8sApi : ApiMethod -> list JsValue -> Completion JsValue;
    kc : KubeConfig }.

(** [request.params] of a [CallToolRequestSchema] request. *)
Record CallToolRequest : Type := { name : string; arguments : JsValue }.

(** [{ content: [{ type: 'text', text }] }] *)
Definition text_result (text : JsValue) : JsValue :=
  JObj [("content", JArr [JObj [("type", JStr "text"); ("text", text)]])].

(** [{ content: [{ type: 'text', text }], isError: true }] *)
Definition error_result (text : JsValue) : JsValue :=
  JObj [("content", JArr [JObj [("type", JStr "text"); ("text", text)]]);
        ("isError", JBool true)].

(** [ErrorCode.MethodNotFound] *)
Definition MethodNotFound : Z := (-32601)%Z.

Definition role_prefix : string := "node-role.kubernetes.io/".

(** [switch (scrutinee) { case label: return body; ... default: ... }],
    every case returning: the first case whose label is strictly equal to
    the scrutinee, the default otherwise. *)
Fixpoint switch {A} (scrutinee : string) (cases : list (string * A)) (default : A) : A :=
  match cases with
  | [] => default
  | (label, body) :: rest =>
      if scrutinee =? label then body else switch scrutinee rest default
  end.

Section Handlers.

(** The engine's wording of a [TypeError] raised while reading or calling
    the named property, and the SDK's wording of [McpError.message]. *)
Variable TypeError_message : string -> string.
Variable McpError_message : Z -> string -> string.

Variable this : KubernetesServer.

(** [new McpError (code, message)]; [McpError] extends [Error]. *)
Definition McpError (code : Z) (message : string) : Thrown :=
  ErrorInstance (McpError_message code message).

(** [v.k] *)
Definition member (v : JsValue) (k : string) : Completion JsValue :=
  if nullish v then Throw (ErrorInstance (TypeError_message k))
  else Normal (prop v k).

(** [Object.entries(v)] and [Object.keys(v)] *)
Definition Object_entries (v : JsValue) : Completion (list (string * JsValue)) :=
  if nullish v then Throw (ErrorInstance (TypeError_message "entries"))
  else Normal (own_entries v).

Definition Object_keys (v : JsValue) : Completion (list string) :=
  if nullish v then Throw (ErrorInstance (TypeError_message "keys"))
  else Normal (own_keys v).

Fixpoint map_each (f : JsValue -> Completion JsValue) (l : list JsValue)
  : Completion (list JsValue) :=
  match l with
  | [] => Normal []
  | x :: r =>
      let! y := f x in
      let! ys := map_each f r in
      Normal (y :: ys)
  end.

(** [v.map(f)]: [v] has a [map] method only when it is an array. *)
Definition Array_map (v : JsValue) (f : JsValue -> Completion JsValue)
  : Completion JsValue :=
  match v with
  | JArr xs => let! ys := map_each f xs in Normal (JArr ys)
  | _ => Throw (ErrorInstance (TypeError_message "map"))
  end.

Fixpoint find_first (p : JsValue -> Completion bool) (l : list JsValue)
  : Completion JsValue :=
  match l with
  | [] => Normal JUndefined
  | x :: r =>
      let! hit := p x in
      if hit then Normal x else find_first p r
  end.

(** [v?.find(p)] *)
Definition opt_find (v : JsValue) (p : JsValue -> Completion bool)
  : Completion JsValue :=
  match v with
  | JUndefined | JNull => Normal JUndefined
  | JArr xs => find_first p xs
  | _ => Throw (ErrorInstance (TypeError_message "find"))
  end.

(** [await this.k8sApi.<group>.<method>(...params)] *)
Definition await (m : ApiMethod) (ps : list JsValue) : M JsValue :=
  fun t => (k8sApi this m ps, (t ++ [{| method := m; params := ps |}])%list).

(* --------------------------------------------------------------------- *)
(** ** The thirteen operations                                            *)
(* --------------------------------------------------------------------- *)

Definition getClusterInfo : M JsValue :=
  try_catch
    (versionInfo <- await getAPIResources [] ;;
     let currentContext := getCurrentContext (kc this) in
     let cluster := getCluster (kc this) currentContext in
     resources <- lift (member versionInfo "resources") ;;
     groupVersion <- lift (member versionInfo "groupVersion") ;;
     ret (text_result
            (JSON_stringify
               (JObj [("currentContext", JStr currentContext);
                      ("clusterInfo", cluster);
                      ("apiResources", resources);
                      ("groupVersion", groupVersion)]))))
    (fun error =>
       ret (error_result
              (JStr ("Error getting cluster info: " ++ error_text error)))).

(** The arrow function mapped over the pods. *)
Definition pod_summary (pod : JsValue) : Completion JsValue :=
  let! name_of := member pod "metadata" in
  let! namespace_of := member pod "metadata" in
  let! status_of := member pod "status" in
  let! ip_of := member pod "status" in
  let! node_of := member pod "spec" in
  let! created_of := member pod "metadata" in
  Normal (JObj [("name", opt name_of "name");
                ("namespace", opt namespace_of "namespace");
                ("status", opt status_of "phase");
                ("ip", opt ip_of "podIP");
                ("node", opt node_of "nodeName");
                ("creationTimestamp", opt created_of "creationTimestamp")]).

Definition unable_to_connect (server : JsValue) : string :=
  "Unable to connect to the Kubernetes cluster at " ++ ToString server ++ "."
  ++ newline ++ newline
  ++ "This could be due to one of the following reasons:" ++ newline
  ++ "1. The cluster is not running or accessible from this environment" ++ newline
  ++ "2. The kubeconfig file is pointing to a cluster that's not available" ++ newline
  ++ "3. The cluster requires a proxy or VPN connection" ++ newline
  ++ "4. There might be network issues preventing the connection"
  ++ newline ++ newline
  ++ "Please check your Kubernetes configuration and network connectivity.".

Definition listPods (args : JsValue) : M JsValue :=
  try_catch
    (let namespace := or_else (opt args "namespace") (JStr "default") in
     try_catch
       (response <- await listNamespacedPod [namespace] ;;
        (* console.error('Pod response structure:', Object.keys(response)) *)
        _ <- lift (Object_keys response) ;;
        body <- lift (member response "body") ;;
        let items := or_else (opt body "items") (JArr []) in
        pods <- lift (Array_map items pod_summary) ;;
        ret (text_result (JSON_stringify pods)))
       (fun connectionError =>
          let currentContext := getCurrentContext (kc this) in
          let cluster := getCluster (kc this) currentContext in
          ret (error_result (JStr (unable_to_connect (opt cluster "server"))))))
    (fun error =>
       ret (error_result (JStr ("Error listing pods: " ++ error_text error)))).

Definition service_summary (service : JsValue) : Completion JsValue :=
  let! name_of := member service "metadata" in
  let! namespace_of := member service "metadata" in
  let! type_of := member service "spec" in
  let! clusterIP_of := member service "spec" in
  let! ports_of := member service "spec" in
  let! selector_of := member service "spec" in
  let! created_of := member service "metadata" in
  Normal (JObj [("name", opt name_of "name");
                ("namespace", opt namespace_of "namespace");
                ("type", opt type_of "type");
                ("clusterIP", opt clusterIP_of "clusterIP");
                ("ports", opt ports_of "ports");
                ("selector", opt selector_of "selector");
                ("creationTimestamp", opt created_of "creationTimestamp")]).

Definition listServices (args : JsValue) : M JsValue :=
  let namespace := or_else (opt args "namespace") (JStr "default") in
  let labelSelector := opt args "labelSelector" in
  try_catch
    (response <- await listNamespacedService [namespace; JUndefined; labelSelector] ;;
     body <- lift (member response "body") ;;
     items <- lift (member body "items") ;;
     services <- lift (Array_map items service_summary) ;;
     ret (text_result (JSON_stringify services)))
    (fun error =>
       ret (error_result (JStr ("Error listing services: " ++ error_text error)))).

Definition deployment_summary (deployment : JsValue) : Completion JsValue :=
  let! name_of := member deployment "metadata" in
  let! namespace_of := member deployment "metadata" in
  let! desired_of := member deployment "spec" in
  let! available_of := member deployment "status" in
  let! ready_of := member deployment "status" in
  let! selector_of := member deployment "spec" in
  let! created_of := member deployment "metadata" in
  Normal (JObj [("name", opt name_of "name");
                ("namespace", opt namespace_of "namespace");
                ("replicas",
                  JObj [("desired", opt desired_of "replicas");
                        ("available", opt available_of "availableReplicas");
                        ("ready", opt ready_of "readyReplicas")]);
                ("selector", opt selector_of "selector");
                ("creationTimestamp", opt created_of "creationTimestamp")]).

Definition listDeployments (args : JsValue) : M JsValue :=
  let namespace := or_else (opt args "namespace") (JStr "default") in
  let labelSelector := opt args "labelSelector" in
  try_catch
    (response <- await listNamespacedDeployment [namespace; JUndefined; labelSelector] ;;
     body <- lift (member response "body") ;;
     items <- lift (member body "items") ;;
     deployments <- lift (Array_map items deployment_summary) ;;
     ret (text_result (JSON_stringify deployments)))
    (fun error =>
       ret (error_result (JStr ("Error listing deployments: " ++ error_text error)))).

Definition describePod (args : JsValue) : M JsValue :=
  if negb (truthy (opt args "name")) then
    ret (error_result (JStr "Error: Pod name is required"))
  else
    namespace_of <- lift (member args "namespace") ;;
    let namespace := or_else namespace_of (JStr "default") in
    try_catch
      (name_of <- lift (member args "name") ;;
       response <- await readNamespacedPod [name_of; namespace] ;;
       body <- lift (member response "body") ;;
       ret (text_result (JSON_stringify body)))
      (fun error =>
         ret (error_result (JStr ("Error describing pod: " ++ error_text error)))).

Definition describeService (args : JsValue) : M JsValue :=
  if negb (truthy (opt args "name")) then
    ret (error_result (JStr "Error: Service name is required"))
  else
    namespace_of <- lift (member args "namespace") ;;
    let namespace := or_else namespace_of (JStr "default") in
    try_catch
      (name_of <- lift (member args "name") ;;
       response <- await readNamespacedService [name_of; namespace] ;;
       body <- lift (member response "body") ;;
       ret (text_result (JSON_stringify body)))
      (fun error =>
         ret (error_result (JStr ("Error describing service: " ++ error_text error)))).

Definition describeDeployment (args : JsValue) : M JsValue :=
  if negb (truthy (opt args "name")) then
    ret (error_result (JStr "Error: Deployment name is required"))
  else
    namespace_of <- lift (member args "namespace") ;;
    let namespace := or_else namespace_of (JStr "default") in
    try_catch
      (name_of <- lift (member args "name") ;;
       response <- await readNamespacedDeployment [name_of; namespace] ;;
       body <- lift (member response "body") ;;
       ret (text_result (JSON_stringify body)))
      (fun error =>
         ret (error_result (JStr ("Error describing deployment: " ++ error_text error)))).

Definition getPodLogs (args : JsValue) : M JsValue :=
  if negb (truthy (opt args "name")) then
    ret (error_result (JStr "Error: Pod name is required"))
  else
    namespace_of <- lift (member args "namespace") ;;
    let namespace := or_else namespace_of (JStr "default") in
    container <- lift (member args "container") ;;
    tailLines <- lift (member args "tailLines") ;;
    try_catch
      (name_of <- lift (member args "name") ;;
       response <- await readNamespacedPodLog
                     [name_of; namespace;
                      JObj [("container", container); ("tailLines", tailLines)]] ;;
       ret (text_result response))
      (fun error =>
         ret (error_result (JStr ("Error getting pod logs: " ++ error_text error)))).

Definition namespace_summary (ns : JsValue) : Completion JsValue :=
  let! name_of := member ns "metadata" in
  let! status_of := member ns "status" in
  let! created_of := member ns "metadata" in
  Normal (JObj [("name", opt name_of "name");
                ("status", opt status_of "phase");
                ("creationTimestamp", opt created_of "creationTimestamp")]).

Definition listNamespaces : M JsValue :=
  try_catch
    (response <- await listNamespace [] ;;
     (* console.error('Namespace response:', JSON.stringify(response, null, 2)) *)
     let logged := JSON_stringify response in
     if negb (truthy response) then
       ret (error_result (JStr "Error: No response from Kubernetes API"))
     else
       body <- lift (member response "body") ;;
       wrapped <- (if truthy body
                   then lift (let! b := member response "body" in member b "items")
                   else ret body) ;;
       if truthy wrapped then
         body' <- lift (member response "body") ;;
         items <- lift (member body' "items") ;;
         namespaces <- lift (Array_map items namespace_summary) ;;
         ret (text_result (JSON_stringify namespaces))
       else
         direct <- lift (member response "items") ;;
         if truthy direct then
           items <- lift (member response "items") ;;
           namespaces <- lift (Array_map items namespace_summary) ;;
           ret (text_result (JSON_stringify namespaces))
         else
           ret (text_result
                  (JStr ("Raw response: " ++ ToString (JSON_stringify response)))))
    (fun error =>
       ret (error_result (JStr ("Error listing namespaces: " ++ error_text error)))).

(** [node.status?.conditions?.find((c) => c.type === 'Ready')?.status
     === 'True' ? 'Ready' : 'NotReady'] *)
Definition is_Ready_condition (c : JsValue) : Completion bool :=
  let! type_of := member c "type" in
  Normal (strict_eq_str type_of "Ready").

Definition node_status (node : JsValue) : Completion JsValue :=
  let! status_of := member node "status" in
  let! found := opt_find (opt status_of "conditions") is_Ready_condition in
  Normal (if strict_eq_str (opt found "status") "True"
          then JStr "Ready" else JStr "NotReady").

(** [Object.entries(node.metadata?.labels || {})
       .filter(([key]) => key.startsWith('node-role.kubernetes.io/'))
       .map(([key]) => key.replace('node-role.kubernetes.io/', ''))] *)
Definition node_roles (node : JsValue) : Completion JsValue :=
  let! metadata_of := member node "metadata" in
  let! entries := Object_entries (or_else (opt metadata_of "labels") (JObj [])) in
  Normal (JArr (map (fun entry => JStr (replace (fst entry) role_prefix ""))
                  (filter (fun entry => startsWith (fst entry) role_prefix)
                     entries))).

Definition node_summary (node : JsValue) : Completion JsValue :=
  let! name_of := member node "metadata" in
  let! status := node_status node in
  let! roles := node_roles node in
  let! version_of := member node "status" in
  let! osImage_of := member node "status" in
  let! kernelVersion_of := member node "status" in
  let! created_of := member node "metadata" in
  Normal (JObj [("name", opt name_of "name");
                ("status", status);
                ("roles", roles);
                ("version", opt (opt version_of "nodeInfo") "kubeletVersion");
                ("osImage", opt (opt osImage_of "nodeInfo") "osImage");
                ("kernelVersion", opt (opt kernelVersion_of "nodeInfo") "kernelVersion");
                ("creationTimestamp", opt created_of "creationTimestamp")]).

Definition listNodes (args : JsValue) : M JsValue :=
  let labelSelector := opt args "labelSelector" in
  try_catch
    (response <- await listNode [JUndefined; labelSelector] ;;
     body <- lift (member response "body") ;;
     items <- lift (member body "items") ;;
     nodes <- lift (Array_map items node_summary) ;;
     ret (text_result (JSON_stringify nodes)))
    (fun error =>
       ret (error_result (JStr ("Error listing nodes: " ++ error_text error)))).

Definition describeNode (args : JsValue) : M JsValue :=
  if negb (truthy (opt args "name")) then
    ret (error_result (JStr "Error: Node name is required"))
  else
    try_catch
      (name_of <- lift (member args "name") ;;
       response <- await readNode [name_of] ;;
       body <- lift (member response "body") ;;
       ret (text_result (JSON_stringify body)))
      (fun error =>
         ret (error_result (JStr ("Error describing node: " ++ error_text error)))).

Definition configmap_summary (cm : JsValue) : Completion JsValue :=
  let! name_of := member cm "metadata" in
  let! namespace_of := member cm "metadata" in
  let! data_of := member cm "data" in
  let! dataKeys := Object_keys (or_else data_of (JObj [])) in
  let! created_of := member cm "metadata" in
  Normal (JObj [("name", opt name_of "name");
                ("namespace", opt namespace_of "namespace");
                ("dataKeys", JArr (map JStr dataKeys));
                ("creationTimestamp", opt created_of "creationTimestamp")]).

Definition listConfigMaps (args : JsValue) : M JsValue :=
  let namespace := or_else (opt args "namespace") (JStr "default") in
  let labelSelector := opt args "labelSelector" in
  try_catch
    (response <- await listNamespacedConfigMap [namespace; JUndefined; labelSelector] ;;
     body <- lift (member response "body") ;;
     items <- lift (member body "items") ;;
     configMaps <- lift (Array_map items configmap_summary) ;;
     ret (text_result (JSON_stringify configMaps)))
    (fun error =>
       ret (error_result (JStr ("Error listing configmaps: " ++ error_text error)))).

Definition describeConfigMap (args : JsValue) : M JsValue :=
  if negb (truthy (opt args "name")) then
    ret (error_result (JStr "Error: ConfigMap name is required"))
  else
    namespace_of <- lift (member args "namespace") ;;
    let namespace := or_else namespace_of (JStr "default") in
    try_catch
      (name_of <- lift (member args "name") ;;
       response <- await readNamespacedConfigMap [name_of; namespace] ;;
       body <- lift (member response "body") ;;
       ret (text_result (JSON_stringify body)))
      (fun error =>
         ret (error_result (JStr ("Error describing configmap: " ++ error_text error)))).

(* --------------------------------------------------------------------- *)
(** ** Dispatch                                                           *)
(* --------------------------------------------------------------------- *)

(** The [CallToolRequestSchema] handler. *)
Definition CallToolRequestHandler (request : CallToolRequest) : M JsValue :=
  try_catch
    (switch (name request)
       [("get_cluster_info", getClusterInfo);
        ("list_pods", listPods (arguments request));
        ("list_services", listServices (arguments request));
        ("list_deployments", listDeployments (arguments request));
        ("describe_pod", describePod (arguments request));
        ("describe_service", describeService (arguments request));
        ("describe_deployment", describeDeployment (arguments request));
        ("get_pod_logs", getPodLogs (arguments request));
        ("list_namespaces", listNamespaces);
        ("list_nodes", listNodes (arguments request));
        ("describe_node", describeNode (arguments request));
        ("list_configmaps", listConfigMaps (arguments request));
        ("describe_configmap", describeConfigMap (arguments request))]
       (throw (McpError MethodNotFound ("Unknown tool: " ++ name request))))
    (fun error => ret (error_result (JStr ("Error: " ++ error_text error)))).

End Handlers.

(* ===================================================================== *)
(** * The tool catalog                                                    *)
(* ===================================================================== *)

(** The object literal returned for [ListToolsRequestSchema], kept as the
    JavaScript value it is. *)

Definition string_property (description : string) : JsValue :=
  JObj [("type", JStr "string"); ("description", JStr description)].

Definition number_property (description : string) : JsValue :=
  JObj [("type", JStr "number"); ("description", JStr description)].

Definition tool (tool_name description : string)
  (properties : list (string * JsValue)) (required : list string) : JsValue :=
  JObj [("name", JStr tool_name);
        ("description", JStr description);
        ("inputSchema",
          JObj [("type", JStr "object");
                ("properties", JObj properties);
                ("required", JArr (map JStr required))])].

Definition namespace_property : JsValue :=
  string_property
    ("Kubernetes namespace (default: " ++ dquote ++ "default" ++ dquote ++ ")").

Definition selector_property (what example : string) : JsValue :=
  string_property
    ("Label selector to filter " ++ what ++ " (e.g. " ++ dquote ++ example ++ dquote ++ ")").

Definition tools : list JsValue :=
  [ tool "get_cluster_info"
      "Get information about the current Kubernetes cluster" [] [];
    tool "list_pods" "List pods in a namespace"
      [("namespace", namespace_property);
       ("labelSelector", selector_property "pods" "app=nginx")] [];
    tool "list_services" "List services in a namespace"
      [("namespace", namespace_property);
       ("labelSelector", selector_property "services" "app=nginx")] [];
    tool "list_deployments" "List deployments in a namespace"
      [("namespace", namespace_property);
       ("labelSelector", selector_property "deployments" "app=nginx")] [];
    tool "describe_pod" "Get detailed information about a pod"
      [("name", string_property "Pod name");
       ("namespace", namespace_property)] ["name"];
    tool "describe_service" "Get detailed information about a service"
      [("name", string_property "Service name");
       ("namespace", namespace_property)] ["name"];
    tool "describe_deployment" "Get detailed information about a deployment"
      [("name", string_property "Deployment name");
       ("namespace", namespace_property)] ["name"];
    tool "get_pod_logs" "Get logs from a pod"
      [("name", string_property "Pod name");
       ("namespace", namespace_property);
       ("container",
         string_property "Container name (if pod has multiple containers)");
       ("tailLines",
         number_property "Number of lines to return from the end of the logs")]
      ["name"];
    tool "list_namespaces" "List all namespaces in the cluster" [] [];
    tool "list_nodes" "List all nodes in the cluster"
      [("labelSelector", selector_property "nodes" "kubernetes.io/role=master")] [];
    tool "describe_node" "Get detailed information about a node"
      [("name", string_property "Node name")] ["name"];
    tool "list_configmaps" "List configmaps in a namespace"
      [("namespace", namespace_property);
       ("labelSelector", string_property "Label selector to filter configmaps")] [];
    tool "describe_configmap" "Get detailed information about a configmap"
      [("name", string_property "ConfigMap name");
       ("namespace", namespace_property)] ["name"] ].

(** The [ListToolsRequestSchema] handler. *)
Definition ListToolsRequestHandler : M JsValue :=
  ret (JObj [("tools", JArr tools)]).

(** Reading the catalog: the descriptor registered under a name, and the
    fields its [inputSchema.required] lists. *)
Definition descriptor (tool_name : string) : option JsValue :=
  find (fun t => strict_eq_str (prop t "name") tool_name) tools.

Definition tool_names : list string :=
  map (fun t => ToString (prop t "name")) tools.

Definition required_fields (t : JsValue) : list string :=
  match prop (prop t "inputSchema") "required" with
  | JArr fields => map ToString fields
  | _ => []
  end.

Definition declared_properties (t : JsValue) : list string :=
  own_keys (prop (prop t "inputSchema") "properties").

(* ===================================================================== *)
(** * The server as the transport sees it                                 *)
(* ===================================================================== *)

Inductive Request : Type :=
| ListTools
| CallTool (request : CallToolRequest).

Section Serving.

Variable TypeError_message : string -> string.
Variable McpError_message : Z -> string -> string.
Variable this : KubernetesServer.

Definition handle (r : Request) : M JsValue :=
  match r with
  | ListTools => ListToolsRequestHandler
  | CallTool request =>
      CallToolRequestHandler TypeError_message McpError_message this request
  end.

(** Requests served one after the other by the same server instance; the
    replies in order, and every upstream call made. *)
Fixpoint serve (rs : list Request) (t : Trace)
  : list (Completion JsValue) * Trace :=
  match rs with
  | [] => ([], t)
  | r :: rest =>
      let (reply, t') := handle r t in
      let (replies, t'') := serve rest t' in
      (reply :: replies, t'')
  end.

(** One invocation on a server that has served nothing yet. *)
Definition invoke (request : CallToolRequest) : Completion JsValue * Trace :=
  handle (CallTool request) [].

End Serving.

(* ===================================================================== *)
(** * What counts as an error of an invocation                            *)
(* ===================================================================== *)

(** The name is not in the catalog. *)
Definition unknown_tool (request : CallToolRequest) : Prop :=
  descriptor (name request) = None.

(** A field the catalog requires is missing from the argument bag, or is
    there with an empty (falsy) value. *)
Definition validation_failure (request : CallToolRequest) : Prop :=
  exists t field,
    descriptor (name request) = Some t /\
    In field (required_fields t) /\
    truthy (opt (arguments request) field) = false.

(** An upstream call made by the invocation was rejected. *)
Definition upstream_failure (TypeError_message : string -> string)
  (McpError_message : Z -> string -> string) (this : KubernetesServer)
  (request : CallToolRequest) : Prop :=
  exists call e,
    In call (snd (invoke TypeError_message McpError_message this request)) /\
    k8sApi this (method call) (params call) = Throw e.

(** Any of the three. *)
Definition invocation_error (TypeError_message : string -> string)
  (McpError_message : Z -> string -> string) (this : KubernetesServer)
  (request : CallToolRequest) : Prop :=
  unknown_tool request \/
  validation_failure request \/
  upstream_failure TypeError_message McpError_message this request.

(* ===================================================================== *)
(** * Notions used to state the properties                                *)
(* ===================================================================== *)

(** A computation that makes no upstream call. *)
Definition silent {A} (m : M A) : Prop := forall t, snd (m t) = t.

(** A computation whose outcome and whose calls do not depend on what was
    called before it. *)
Definition uniform {A} (m : M A) : Prop :=
  forall t, m t = (fst (m []), (t ++ snd (m []))%list).

(** The envelope carries the error flag and one text entry with a
    non-empty message. *)
Definition failure_envelope (env : JsValue) : Prop :=
  prop env "isError" = JBool true /\
  exists message,
    prop env "content" = JArr [JObj [("type", JStr "text"); ("text", JStr message)]] /\
    message <> "".

(** The envelope has no error flag and one text entry. *)
Definition success_envelope (env text : JsValue) : Prop :=
  prop env "isError" = JUndefined /\
  prop env "content" = JArr [JObj [("type", JStr "text"); ("text", text)]].

(** The condition list of a raw node: [node.status?.conditions] when it is
    an array, no condition when it is absent. *)
Definition conditions_of (node : JsValue) : list JsValue :=
  match opt (prop node "status") "conditions" with
  | JArr conditions => conditions
  | _ => []
  end.

Definition conditions_well_formed (node : JsValue) : Prop :=
  (nullish (opt (prop node "status") "conditions") = true \/
   exists conditions, opt (prop node "status") "conditions" = JArr conditions) /\
  Forall (fun c => nullish c = false) (conditions_of node).

Definition is_Ready (c : JsValue) : Prop := prop c "type" = JStr "Ready".

(** The keys of a node's label map. *)
Definition label_keys (node : JsValue) : list string :=
  own_keys (or_else (opt (prop node "metadata") "labels") (JObj [])).

(** The keys of a configmap's data map; none when the map is absent. *)
Definition data_keys (cm : JsValue) : list string :=
  match prop cm "data" with
  | JObj data => map fst data
  | _ => []
  end.

Definition data_map_or_absent (cm : JsValue) : Prop :=
  nullish (prop cm "data") = true \/ exists data, prop cm "data" = JObj data.

(** Two properties of two configmaps that agree, except that under the
    key [data] two maps need only have the same keys. *)
Definition same_property_up_to_data_values (p q : string * JsValue) : Prop :=
  fst p = fst q /\
  (snd p = snd q \/
   (fst p = "data" /\
    exists d d', snd p = JObj d /\ snd q = JObj d' /\ map fst d = map fst d')).

(** Two raw configmaps that differ at most in the values of their data. *)
Inductive same_up_to_data_values : JsValue -> JsValue -> Prop :=
| same_configmaps ps qs :
    Forall2 same_property_up_to_data_values ps qs ->
    same_up_to_data_values (JObj ps) (JObj qs).

(** A reply is one of the two object literals the handlers return: a text
    entry alone, or a text entry that is a non-empty string next to the
    error flag. *)
Definition reply_envelope (env : JsValue) : Prop :=
  (exists text, env = text_result text) \/
  (exists message, env = error_result (JStr message) /\ message <> "").

(** A computation that, when it returns, returns a reply envelope. *)
Definition replying (m : M JsValue) : Prop :=
  forall t,
    match fst (m t) with
    | Normal env => reply_envelope env
    | Throw _ => True
    end.

(** The calls a request makes on a server that has served nothing yet. *)
Definition fresh_calls (TypeError_message : string -> string)
  (McpError_message : Z -> string -> string) (this : KubernetesServer)
  (r : Request) : Trace :=
  snd (handle TypeError_message McpError_message this r []).

(** The invocation made exactly one upstream call, and that call resolved
    to [response]. *)
Definition upstream_answer (TypeError_message : string -> string)
  (McpError_message : Z -> string -> string) (this : KubernetesServer)
  (request : CallToolRequest) (response : JsValue) : Prop :=
  exists call,
    snd (invoke TypeError_message McpError_message this request) = [call] /\
    k8sApi this (method call) (params call) = Normal response.

Definition is_CallTool (r : Request) : bool :=
  match r with
  | CallTool _ => true
  | ListTools => false
  end.

(* ===================================================================== *)
(** * Sample clusters                                                     *)
(* ===================================================================== *)

Module Sample.

Definition TypeError_message (k : string) : string :=
  "Cannot read properties of undefined (reading '" ++ k ++ "')".

Definition McpError_message (code : Z) (message : string) : string :=
  "MCP error " ++ Number_toString code ++ ": " ++ message.

Definition minikube : KubeConfig :=
  {| getCurrentContext := "minikube";
     getCluster := fun context =>
       if context =? "minikube"
       then JObj [("name", JStr "minikube");
                  ("server", JStr "https://192.168.49.2:8443");
                  ("skipTLSVerify", JBool false)]
       else JNull |}.

Definition metadata (nm : string) : JsValue :=
  JObj [("name", JStr nm); ("namespace", JStr "default");
        ("creationTimestamp", JStr "2025-03-01T10:00:00.000Z")].

Definition nginx_pod (nm ip : string) : JsValue :=
  JObj [("metadata", metadata nm);
        ("spec", JObj [("nodeName", JStr "minikube")]);
        ("status", JObj [("phase", JStr "Running"); ("podIP", JStr ip)])].

Definition condition (type status : string) : JsValue :=
  JObj [("type", JStr type); ("status", JStr status)].

Definition node (labels : list (string * JsValue)) (conditions : list JsValue)
  : JsValue :=
  JObj [("metadata", JObj [("name", JStr "minikube"); ("labels", JObj labels)]);
        ("status",
          JObj [("conditions", JArr conditions);
                ("nodeInfo", JObj [("kubeletVersion", JStr "v1.32.0")])])].

Definition control_plane_labels : list (string * JsValue) :=
  [("kubernetes.io/hostname", JStr "minikube");
   ("node-role.kubernetes.io/control-plane", JStr "");
   ("node-role.kubernetes.io/master", JStr "")].

(** A node that reports the [Ready] condition twice, first as [False]. *)
Definition flapping_node : JsValue :=
  node control_plane_labels
    [condition "MemoryPressure" "False";
     condition "Ready" "False";
     condition "Ready" "True"].

Definition ready_node : JsValue :=
  node control_plane_labels
    [condition "MemoryPressure" "False"; condition "Ready" "True"].

Definition configmap (nm : string) (data : list (string * JsValue)) : JsValue :=
  JObj [("metadata", metadata nm); ("data", JObj data)].

Definition list_of (items : list JsValue) : JsValue :=
  JObj [("response", JObj []); ("body", JObj [("items", JArr items)])].

(** A cluster that answers every read. *)
Definition healthy (secret : string) : KubernetesServer :=
  {| k8sApi := fun m ps =>
       match m with
       | listNamespacedPod =>
           Normal (list_of [nginx_pod "nginx-1" "10.244.0.5";
                            nginx_pod "nginx-2" "10.244.0.6"])
       | listNamespacedConfigMap =>
           Normal (list_of [configmap "app-config"
                              [("db.password", JStr secret);
                               ("mode", JStr "production")];
                            configmap "empty" []])
       | listNode => Normal (list_of [ready_node])
       | readNamespacedPodLog => Normal (JStr ("started" ++ newline ++ "ready"))
       | listNamespace => Normal (JObj [("kind", JStr "Status")])
       | _ => Normal (list_of [])
       end;
     kc := minikube |}.

(** A cluster whose namespace holds no pod. *)
Definition empty_namespace : KubernetesServer :=
  {| k8sApi := fun _ _ => Normal (list_of []); kc := minikube |}.

(** A cluster that answers, and refuses every read. *)
Definition forbidden_text : string :=
  "pods is forbidden: User cannot list resource in the namespace".

Definition forbidding : KubernetesServer :=
  {| k8sApi := fun _ _ => Throw (ErrorInstance forbidden_text); kc := minikube |}.

(** A client that resolves every read to the same value. *)
Definition answering (response : JsValue) : KubernetesServer :=
  {| k8sApi := fun _ _ => Normal response; kc := minikube |}.

Definition call (tool_name : string) (args : list (string * JsValue))
  : CallToolRequest :=
  {| name := tool_name; arguments := JObj args |}.

End Sample.

(* ===================================================================== *)
(** * Properties                                                          *)
(* ===================================================================== *)

(** ** Values *)

Lemma opt_is_prop v k : opt v k = prop v k.
Proof. destruct v; reflexivity. Qed.

Lemma truthy_not_nullish v : truthy v = true -> nullish v = false.
Proof. destruct v; simpl; congruence. Qed.

Lemma objects_are_truthy ps : truthy (JObj ps) = true.
Proof. reflexivity. Qed.

Lemma or_else_not_nullish a b : nullish b = false -> nullish (or_else a b) = false.
Proof.
  intros Hb. unfold or_else. destruct (truthy a) eqn:Ha; auto using truthy_not_nullish.
Qed.

Lemma or_else_absent a b : truthy a = false -> or_else a b = b.
Proof. unfold or_else. intros ->. reflexivity. Qed.

Lemma or_else_present a b : truthy a = true -> or_else a b = a.
Proof. unfold or_else. intros ->. reflexivity. Qed.

(** ** Strings *)

Lemma prefix_drop p s : prefix p s = true -> s = p ++ drop (String.length p) s.
Proof.
  revert s. induction p as [|c p IH]; intros s H; simpl.
  - reflexivity.
  - destruct s as [|d s]; simpl in H; [discriminate|].
    destruct (Ascii.ascii_dec c d) as [->|]; [|discriminate].
    simpl. f_equal. apply IH, H.
Qed.

(** On a key that starts with the pattern, [replace] with the empty string
    strips exactly that leading occurrence. *)
Lemma replace_unfold s pat rep :
  replace s pat rep =
  if prefix pat s then rep ++ drop (String.length pat) s
  else match s with
       | EmptyString => EmptyString
       | String c s' => String c (replace s' pat rep)
       end.
Proof. destruct s; reflexivity. Qed.

Lemma replace_leading s p :
  startsWith s p = true -> replace s p "" = drop (String.length p) s.
Proof.
  unfold startsWith. intros H. rewrite replace_unfold, H. reflexivity.
Qed.

Lemma replace_leading_strips s p :
  startsWith s p = true -> s = p ++ replace s p "".
Proof.
  intros H. rewrite (replace_leading _ _ H). apply prefix_drop, H.
Qed.

Lemma prefix_refl s : prefix s s = true.
Proof.
  induction s as [|c s IH]; simpl; [reflexivity|].
  destruct (Ascii.ascii_dec c c); [exact IH | contradiction].
Qed.

Lemma includes_unfold hay needle :
  includes hay needle =
  if prefix needle hay then true
  else match hay with
       | EmptyString => false
       | String _ hay' => includes hay' needle
       end.
Proof. destruct hay; reflexivity. Qed.

(** A message that ends with a text includes it. *)
Lemma includes_appended a b : includes (a ++ b) b = true.
Proof.
  induction a as [|c a IH]; cbn [append]; rewrite includes_unfold.
  - now rewrite prefix_refl.
  - destruct (prefix b (String c (a ++ b))); [reflexivity | exact IH].
Qed.

Lemma append_nonempty a b : a <> "" -> a ++ b <> "".
Proof. destruct a; simpl; congruence. Qed.

(** ** Computations *)

Lemma silent_ret {A} (a : A) : silent (ret a).
Proof. intros t. reflexivity. Qed.

Lemma silent_throw {A} e : silent (@throw A e).
Proof. intros t. reflexivity. Qed.

Lemma silent_lift {A} (c : Completion A) : silent (lift c).
Proof. intros t. reflexivity. Qed.

Lemma silent_bind {A B} (m : M A) (k : A -> M B) :
  silent m -> (forall a, silent (k a)) -> silent (bind m k).
Proof.
  intros Hm Hk t. unfold bind. specialize (Hm t).
  destruct (m t) as [[a|e] t']; simpl in *; subst; [apply Hk | reflexivity].
Qed.

Lemma silent_try_catch {A} (body : M A) handler :
  silent body -> (forall e, silent (handler e)) -> silent (try_catch body handler).
Proof.
  intros Hm Hk t. unfold try_catch. specialize (Hm t).
  destruct (body t) as [[a|e] t']; simpl in *; subst; [reflexivity | apply Hk].
Qed.

Lemma uniform_ret {A} (a : A) : uniform (ret a).
Proof. intros t. unfold ret. simpl. now rewrite app_nil_r. Qed.

Lemma uniform_throw {A} e : uniform (@throw A e).
Proof. intros t. unfold throw. simpl. now rewrite app_nil_r. Qed.

Lemma uniform_lift {A} (c : Completion A) : uniform (lift c).
Proof. intros t. unfold lift. simpl. now rewrite app_nil_r. Qed.

Lemma uniform_await this m ps : uniform (await this m ps).
Proof. intros t. reflexivity. Qed.

Lemma uniform_bind {A B} (m : M A) (k : A -> M B) :
  uniform m -> (forall a, uniform (k a)) -> uniform (bind m k).
Proof.
  intros Hm Hk t. unfold bind. rewrite (Hm t).
  destruct (m []) as [[a|e] t0]; simpl.
  - rewrite (Hk a (t ++ t0)%list), (Hk a t0). simpl. now rewrite app_assoc.
  - reflexivity.
Qed.

Lemma uniform_try_catch {A} (body : M A) handler :
  uniform body -> (forall e, uniform (handler e)) -> uniform (try_catch body handler).
Proof.
  intros Hm Hk t. unfold try_catch. rewrite (Hm t).
  destruct (body []) as [[a|e] t0]; simpl.
  - reflexivity.
  - rewrite (Hk e (t ++ t0)%list), (Hk e t0). simpl. now rewrite app_assoc.
Qed.

(** A [try] whose [catch] clause returns never throws. *)
Lemma try_catch_returns {A} (body : M A) (recover : Thrown -> A) t :
  exists a, fst (try_catch body (fun e => ret (recover e)) t) = Normal a.
Proof.
  unfold try_catch, ret. destruct (body t) as [[a|e] t']; simpl; eauto.
Qed.

Lemma try_catch_keeps {A} (body : M A) recover t a :
  fst (body t) = Normal a -> fst (try_catch body recover t) = Normal a.
Proof.
  unfold try_catch. destruct (body t) as [[a'|e] t']; simpl; congruence.
Qed.

Lemma switch_preserves {A} (P : A -> Prop) scrutinee cases default :
  Forall (fun c => P (snd c)) cases -> P default ->
  P (switch scrutinee cases default).
Proof.
  intros Hc Hd. induction Hc as [|[label body] rest Hb _ IH]; simpl; auto.
  destruct (scrutinee =? label); auto.
Qed.

Lemma switch_default {A} scrutinee (cases : list (string * A)) default :
  ~ In scrutinee (map fst cases) -> switch scrutinee cases default = default.
Proof.
  induction cases as [|[label body] rest IH]; simpl; intros H; auto.
  destruct (String.eqb_spec scrutinee label) as [->|_].
  - exfalso. auto.
  - apply IH. auto.
Qed.

Ltac uniformity :=
  repeat first
    [ apply uniform_ret
    | apply uniform_throw
    | apply uniform_lift
    | apply uniform_await
    | apply uniform_try_catch; [|intro]
    | apply uniform_bind; [|intro]
    | match goal with
      | |- uniform (if ?b then _ else _) => destruct b
      end
    | progress cbv zeta ].

Ltac silence :=
  repeat first
    [ apply silent_ret
    | apply silent_throw
    | apply silent_lift
    | apply silent_try_catch; [|intro]
    | apply silent_bind; [|intro]
    | match goal with
      | |- silent (if ?b then _ else _) => destruct b
      end
    | progress cbv zeta ].

(** Reduce the [switch] of the dispatcher on a literal tool name. *)
Ltac dispatch :=
  unfold CallToolRequestHandler;
  cbn [switch name arguments String.eqb Ascii.eqb Bool.eqb andb].

Section Invocation.

Variable TypeError_message : string -> string.
Variable McpError_message : Z -> string -> string.
Variable this : KubernetesServer.

Lemma member_of_value v k :
  nullish v = false -> member TypeError_message v k = Normal (prop v k).
Proof. unfold member. intros ->. reflexivity. Qed.

Lemma member_of_truthy v k :
  truthy v = true -> member TypeError_message v k = Normal (prop v k).
Proof. intros H. apply member_of_value, truthy_not_nullish, H. Qed.

(** An argument bag with a name is an object: its other fields can be read. *)
Lemma named_args_not_nullish args :
  truthy (opt args "name") = true -> nullish args = false.
Proof. destruct args; simpl; congruence. Qed.

Lemma calls_after_await {A} m ps (k : JsValue -> M A) t :
  (forall x, silent (k x)) ->
  snd (bind (await this m ps) k t) = (t ++ [{| method := m; params := ps |}])%list.
Proof.
  intros Hk. unfold bind, await.
  destruct (k8sApi this m ps) as [response|e]; simpl; [apply Hk | reflexivity].
Qed.

Lemma calls_try_catch {A} (body : M A) recover t :
  (forall e, silent (recover e)) ->
  snd (try_catch body recover t) = snd (body t).
Proof.
  intros Hr. unfold try_catch.
  destruct (body t) as [[a|e] t']; simpl; [reflexivity | apply Hr].
Qed.

Lemma try_catch_normal {A} (body : M A) recover t a t' :
  body t = (Normal a, t') -> try_catch body recover t = (Normal a, t').
Proof. unfold try_catch. intros ->. reflexivity. Qed.

(** *** No handler depends on what the server did before *)

Lemma getClusterInfo_uniform : uniform (getClusterInfo TypeError_message this).
Proof. unfold getClusterInfo. uniformity. Qed.

Lemma listPods_uniform args : uniform (listPods TypeError_message this args).
Proof. unfold listPods. uniformity. Qed.

Lemma listServices_uniform args : uniform (listServices TypeError_message this args).
Proof. unfold listServices. uniformity. Qed.

Lemma listDeployments_uniform args : uniform (listDeployments TypeError_message this args).
Proof. unfold listDeployments. uniformity. Qed.

Lemma describePod_uniform args : uniform (describePod TypeError_message this args).
Proof. unfold describePod. uniformity. Qed.

Lemma describeService_uniform args : uniform (describeService TypeError_message this args).
Proof. unfold describeService. uniformity. Qed.

Lemma describeDeployment_uniform args : uniform (describeDeployment TypeError_message this args).
Proof. unfold describeDeployment. uniformity. Qed.

Lemma getPodLogs_uniform args : uniform (getPodLogs TypeError_message this args).
Proof. unfold getPodLogs. uniformity. Qed.

Lemma listNamespaces_uniform : uniform (listNamespaces TypeError_message this).
Proof. unfold listNamespaces. uniformity. Qed.

Lemma listNodes_uniform args : uniform (listNodes TypeError_message this args).
Proof. unfold listNodes. uniformity. Qed.

Lemma describeNode_uniform args : uniform (describeNode TypeError_message this args).
Proof. unfold describeNode. uniformity. Qed.

Lemma listConfigMaps_uniform args : uniform (listConfigMaps TypeError_message this args).
Proof. unfold listConfigMaps. uniformity. Qed.

Lemma describeConfigMap_uniform args : uniform (describeConfigMap TypeError_message this args).
Proof. unfold describeConfigMap. uniformity. Qed.

Lemma handler_uniform request :
  uniform (CallToolRequestHandler TypeError_message McpError_message this request).
Proof.
  unfold CallToolRequestHandler.
  apply uniform_try_catch; [|intro; apply uniform_ret].
  apply switch_preserves; [|apply uniform_throw].
  repeat constructor; simpl;
    auto using getClusterInfo_uniform, listPods_uniform, listServices_uniform,
      listDeployments_uniform, describePod_uniform, describeService_uniform,
      describeDeployment_uniform, getPodLogs_uniform, listNamespaces_uniform,
      listNodes_uniform, describeNode_uniform, listConfigMaps_uniform,
      describeConfigMap_uniform.
Qed.

Lemma handle_uniform r : uniform (handle TypeError_message McpError_message this r).
Proof. destruct r; simpl; [apply uniform_ret | apply handler_uniform]. Qed.

(** *** The upstream call of each handler *)

Ltac one_call :=
  repeat (rewrite calls_try_catch by (intro; silence));
  apply calls_after_await; intro; silence.

Lemma getClusterInfo_calls t :
  snd (getClusterInfo TypeError_message this t)
  = (t ++ [{| method := getAPIResources; params := [] |}])%list.
Proof. unfold getClusterInfo. one_call. Qed.

Lemma listPods_calls args t :
  snd (listPods TypeError_message this args t)
  = (t ++ [{| method := listNamespacedPod;
              params := [or_else (opt args "namespace") (JStr "default")] |}])%list.
Proof. unfold listPods. cbv zeta. one_call. Qed.

Lemma listServices_calls args t :
  snd (listServices TypeError_message this args t)
  = (t ++ [{| method := listNamespacedService;
              params := [or_else (opt args "namespace") (JStr "default");
                         JUndefined; opt args "labelSelector"] |}])%list.
Proof. unfold listServices. cbv zeta. one_call. Qed.

Lemma listDeployments_calls args t :
  snd (listDeployments TypeError_message this args t)
  = (t ++ [{| method := listNamespacedDeployment;
              params := [or_else (opt args "namespace") (JStr "default");
                         JUndefined; opt args "labelSelector"] |}])%list.
Proof. unfold listDeployments. cbv zeta. one_call. Qed.

Lemma listConfigMaps_calls args t :
  snd (listConfigMaps TypeError_message this args t)
  = (t ++ [{| method := listNamespacedConfigMap;
              params := [or_else (opt args "namespace") (JStr "default");
                         JUndefined; opt args "labelSelector"] |}])%list.
Proof. unfold listConfigMaps. cbv zeta. one_call. Qed.

Lemma listNodes_calls args t :
  snd (listNodes TypeError_message this args t)
  = (t ++ [{| method := listNode;
              params := [JUndefined; opt args "labelSelector"] |}])%list.
Proof. unfold listNodes. cbv zeta. one_call. Qed.

Lemma listNamespaces_calls t :
  snd (listNamespaces TypeError_message this t)
  = (t ++ [{| method := listNamespace; params := [] |}])%list.
Proof. unfold listNamespaces. one_call. Qed.

Lemma bind_lift {A B} (a : A) (k : A -> M B) t :
  bind (lift (Normal a)) k t = k a t.
Proof. reflexivity. Qed.

(** With a name in the bag, the reads of [args.namespace], [args.name],
    [args.container] and [args.tailLines] all succeed. *)
Ltac named_then tac :=
  match goal with
  | H : truthy (opt ?args "name") = true |- _ =>
      rewrite H; cbn [negb];
      rewrite ?(member_of_value args) by (apply named_args_not_nullish, H);
      rewrite ?bind_lift; cbv zeta;
      rewrite ?calls_try_catch by (intro; silence);
      rewrite ?bind_lift;
      tac
  end.

Lemma describePod_calls args t :
  truthy (opt args "name") = true ->
  snd (describePod TypeError_message this args t)
  = (t ++ [{| method := readNamespacedPod;
              params := [prop args "name"; or_else (prop args "namespace") (JStr "default")] |}])%list.
Proof. intros H. unfold describePod. named_then one_call. Qed.

Lemma describeService_calls args t :
  truthy (opt args "name") = true ->
  snd (describeService TypeError_message this args t)
  = (t ++ [{| method := readNamespacedService;
              params := [prop args "name"; or_else (prop args "namespace") (JStr "default")] |}])%list.
Proof. intros H. unfold describeService. named_then one_call. Qed.

Lemma describeDeployment_calls args t :
  truthy (opt args "name") = true ->
  snd (describeDeployment TypeError_message this args t)
  = (t ++ [{| method := readNamespacedDeployment;
              params := [prop args "name"; or_else (prop args "namespace") (JStr "default")] |}])%list.
Proof. intros H. unfold describeDeployment. named_then one_call. Qed.

Lemma describeConfigMap_calls args t :
  truthy (opt args "name") = true ->
  snd (describeConfigMap TypeError_message this args t)
  = (t ++ [{| method := readNamespacedConfigMap;
              params := [prop args "name"; or_else (prop args "namespace") (JStr "default")] |}])%list.
Proof. intros H. unfold describeConfigMap. named_then one_call. Qed.

Lemma describeNode_calls args t :
  truthy (opt args "name") = true ->
  snd (describeNode TypeError_message this args t)
  = (t ++ [{| method := readNode;
              params := [prop args "name"] |}])%list.
Proof. intros H. unfold describeNode. named_then one_call. Qed.

Lemma getPodLogs_calls args t :
  truthy (opt args "name") = true ->
  snd (getPodLogs TypeError_message this args t)
  = (t ++ [{| method := readNamespacedPodLog;
              params := [prop args "name";
                         or_else (prop args "namespace") (JStr "default");
                         JObj [("container", prop args "container");
                               ("tailLines", prop args "tailLines")]] |}])%list.
Proof. intros H. unfold getPodLogs. named_then one_call. Qed.

(** *** A missing name is answered without calling upstream *)

Lemma describePod_without_name args t :
  truthy (opt args "name") = false ->
  describePod TypeError_message this args t
  = (Normal (error_result (JStr "Error: Pod name is required")), t).
Proof. intros H. unfold describePod. rewrite H. reflexivity. Qed.

Lemma describeService_without_name args t :
  truthy (opt args "name") = false ->
  describeService TypeError_message this args t
  = (Normal (error_result (JStr "Error: Service name is required")), t).
Proof. intros H. unfold describeService. rewrite H. reflexivity. Qed.

Lemma describeDeployment_without_name args t :
  truthy (opt args "name") = false ->
  describeDeployment TypeError_message this args t
  = (Normal (error_result (JStr "Error: Deployment name is required")), t).
Proof. intros H. unfold describeDeployment. rewrite H. reflexivity. Qed.

Lemma getPodLogs_without_name args t :
  truthy (opt args "name") = false ->
  getPodLogs TypeError_message this args t
  = (Normal (error_result (JStr "Error: Pod name is required")), t).
Proof. intros H. unfold getPodLogs. rewrite H. reflexivity. Qed.

Lemma describeNode_without_name args t :
  truthy (opt args "name") = false ->
  describeNode TypeError_message this args t
  = (Normal (error_result (JStr "Error: Node name is required")), t).
Proof. intros H. unfold describeNode. rewrite H. reflexivity. Qed.

Lemma describeConfigMap_without_name args t :
  truthy (opt args "name") = false ->
  describeConfigMap TypeError_message this args t
  = (Normal (error_result (JStr "Error: ConfigMap name is required")), t).
Proof. intros H. unfold describeConfigMap. rewrite H. reflexivity. Qed.

(** *** A rejected upstream call is answered with an error envelope *)

Lemma getClusterInfo_rejected t e :
  k8sApi this getAPIResources [] = Throw e ->
  getClusterInfo TypeError_message this t
  = (Normal (error_result (JStr ("Error getting cluster info: " ++ error_text e))),
     (t ++ [{| method := getAPIResources; params := [] |}])%list).
Proof.
  intros H. unfold getClusterInfo, try_catch, bind, await. cbv zeta. rewrite H. reflexivity.
Qed.

Lemma listPods_rejected args t e :
  k8sApi this listNamespacedPod [or_else (opt args "namespace") (JStr "default")] = Throw e ->
  listPods TypeError_message this args t
  = (Normal (error_result (JStr (unable_to_connect (opt (getCluster (kc this) (getCurrentContext (kc this))) "server")))),
     (t ++ [{| method := listNamespacedPod; params := [or_else (opt args "namespace") (JStr "default")] |}])%list).
Proof.
  intros H. unfold listPods, try_catch, bind, await. cbv zeta. rewrite H. reflexivity.
Qed.

Lemma listServices_rejected args t e :
  k8sApi this listNamespacedService [or_else (opt args "namespace") (JStr "default"); JUndefined; opt args "labelSelector"] = Throw e ->
  listServices TypeError_message this args t
  = (Normal (error_result (JStr ("Error listing services: " ++ error_text e))),
     (t ++ [{| method := listNamespacedService; params := [or_else (opt args "namespace") (JStr "default"); JUndefined; opt args "labelSelector"] |}])%list).
Proof.
  intros H. unfold listServices, try_catch, bind, await. cbv zeta. rewrite H. reflexivity.
Qed.

Lemma listDeployments_rejected args t e :
  k8sApi this listNamespacedDeployment [or_else (opt args "namespace") (JStr "default"); JUndefined; opt args "labelSelector"] = Throw e ->
  listDeployments TypeError_message this args t
  = (Normal (error_result (JStr ("Error listing deployments: " ++ error_text e))),
     (t ++ [{| method := listNamespacedDeployment; params := [or_else (opt args "namespace") (JStr "default"); JUndefined; opt args "labelSelector"] |}])%list).
Proof.
  intros H. unfold listDeployments, try_catch, bind, await. cbv zeta. rewrite H. reflexivity.
Qed.

Lemma describePod_rejected args t e :
  truthy (opt args "name") = true ->
  k8sApi this readNamespacedPod [prop args "name"; or_else (prop args "namespace") (JStr "default")] = Throw e ->
  describePod TypeError_message this args t
  = (Normal (error_result (JStr ("Error describing pod: " ++ error_text e))),
     (t ++ [{| method := readNamespacedPod; params := [prop args "name"; or_else (prop args "namespace") (JStr "default")] |}])%list).
Proof.
  intros Hname H. unfold describePod. rewrite Hname. cbn [negb].
  rewrite ?(member_of_value args) by (apply named_args_not_nullish, Hname).
  unfold try_catch, bind, await, lift. rewrite H. reflexivity.
Qed.

Lemma describeService_rejected args t e :
  truthy (opt args "name") = true ->
  k8sApi this readNamespacedService [prop args "name"; or_else (prop args "namespace") (JStr "default")] = Throw e ->
  describeService TypeError_message this args t
  = (Normal (error_result (JStr ("Error describing service: " ++ error_text e))),
     (t ++ [{| method := readNamespacedService; params := [prop args "name"; or_else (prop args "namespace") (JStr "default")] |}])%list).
Proof.
  intros Hname H. unfold describeService. rewrite Hname. cbn [negb].
  rewrite ?(member_of_value args) by (apply named_args_not_nullish, Hname).
  unfold try_catch, bind, await, lift. rewrite H. reflexivity.
Qed.

Lemma describeDeployment_rejected args t e :
  truthy (opt args "name") = true ->
  k8sApi this readNamespacedDeployment [prop args "name"; or_else (prop args "namespace") (JStr "default")] = Throw e ->
  describeDeployment TypeError_message this args t
  = (Normal (error_result (JStr ("Error describing deployment: " ++ error_text e))),
     (t ++ [{| method := readNamespacedDeployment; params := [prop args "name"; or_else (prop args "namespace") (JStr "default")] |}])%list).
Proof.
  intros Hname H. unfold describeDeployment. rewrite Hname. cbn [negb].
  rewrite ?(member_of_value args) by (apply named_args_not_nullish, Hname).
  unfold try_catch, bind, await, lift. rewrite H. reflexivity.
Qed.

Lemma getPodLogs_rejected args t e :
  truthy (opt args "name") = true ->
  k8sApi this readNamespacedPodLog [prop args "name"; or_else (prop args "namespace") (JStr "default");
     JObj [("container", prop args "container"); ("tailLines", prop args "tailLines")]] = Throw e ->
  getPodLogs TypeError_message this args t
  = (Normal (error_result (JStr ("Error getting pod logs: " ++ error_text e))),
     (t ++ [{| method := readNamespacedPodLog; params := [prop args "name"; or_else (prop args "namespace") (JStr "default");
     JObj [("container", prop args "container"); ("tailLines", prop args "tailLines")]] |}])%list).
Proof.
  intros Hname H. unfold getPodLogs. rewrite Hname. cbn [negb].
  rewrite ?(member_of_value args) by (apply named_args_not_nullish, Hname).
  unfold try_catch, bind, await, lift. rewrite H. reflexivity.
Qed.

Lemma listNamespaces_rejected t e :
  k8sApi this listNamespace [] = Throw e ->
  listNamespaces TypeError_message this t
  = (Normal (error_result (JStr ("Error listing namespaces: " ++ error_text e))),
     (t ++ [{| method := listNamespace; params := [] |}])%list).
Proof.
  intros H. unfold listNamespaces, try_catch, bind, await. cbv zeta. rewrite H. reflexivity.
Qed.

Lemma listNodes_rejected args t e :
  k8sApi this listNode [JUndefined; opt args "labelSelector"] = Throw e ->
  listNodes TypeError_message this args t
  = (Normal (error_result (JStr ("Error listing nodes: " ++ error_text e))),
     (t ++ [{| method := listNode; params := [JUndefined; opt args "labelSelector"] |}])%list).
Proof.
  intros H. unfold listNodes, try_catch, bind, await. cbv zeta. rewrite H. reflexivity.
Qed.

Lemma describeNode_rejected args t e :
  truthy (opt args "name") = true ->
  k8sApi this readNode [prop args "name"] = Throw e ->
  describeNode TypeError_message this args t
  = (Normal (error_result (JStr ("Error describing node: " ++ error_text e))),
     (t ++ [{| method := readNode; params := [prop args "name"] |}])%list).
Proof.
  intros Hname H. unfold describeNode. rewrite Hname. cbn [negb].
  rewrite ?(member_of_value args) by (apply named_args_not_nullish, Hname).
  unfold try_catch, bind, await, lift. rewrite H. reflexivity.
Qed.

Lemma listConfigMaps_rejected args t e :
  k8sApi this listNamespacedConfigMap [or_else (opt args "namespace") (JStr "default"); JUndefined; opt args "labelSelector"] = Throw e ->
  listConfigMaps TypeError_message this args t
  = (Normal (error_result (JStr ("Error listing configmaps: " ++ error_text e))),
     (t ++ [{| method := listNamespacedConfigMap; params := [or_else (opt args "namespace") (JStr "default"); JUndefined; opt args "labelSelector"] |}])%list).
Proof.
  intros H. unfold listConfigMaps, try_catch, bind, await. cbv zeta. rewrite H. reflexivity.
Qed.

Lemma describeConfigMap_rejected args t e :
  truthy (opt args "name") = true ->
  k8sApi this readNamespacedConfigMap [prop args "name"; or_else (prop args "namespace") (JStr "default")] = Throw e ->
  describeConfigMap TypeError_message this args t
  = (Normal (error_result (JStr ("Error describing configmap: " ++ error_text e))),
     (t ++ [{| method := readNamespacedConfigMap; params := [prop args "name"; or_else (prop args "namespace") (JStr "default")] |}])%list).
Proof.
  intros Hname H. unfold describeConfigMap. rewrite Hname. cbn [negb].
  rewrite ?(member_of_value args) by (apply named_args_not_nullish, Hname).
  unfold try_catch, bind, await, lift. rewrite H. reflexivity.
Qed.

(** *** Dispatch and the catalog *)

Lemma tools_are_named :
  Forall (fun t => exists n, prop t "name" = JStr n) tools.
Proof. repeat constructor; eexists; reflexivity. Qed.

Lemma descriptor_unknown n : descriptor n = None <-> ~ In n tool_names.
Proof.
  unfold descriptor, tool_names. split.
  - intros Hnone Hin. apply in_map_iff in Hin as (t & Hn & Ht).
    pose proof (find_none _ _ Hnone _ Ht) as Hf. simpl in Hf.
    pose proof tools_are_named as Hall. rewrite Forall_forall in Hall.
    destruct (Hall _ Ht) as (m & Hm). rewrite Hm in Hn, Hf. simpl in Hn, Hf.
    subst m. now rewrite String.eqb_refl in Hf.
  - intros Hnot. destruct (find _ tools) as [t|] eqn:Hfind; [|reflexivity].
    apply find_some in Hfind as (Ht & Heq). exfalso. apply Hnot.
    apply in_map_iff. exists t. split; [|exact Ht].
    destruct (prop t "name"); simpl in Heq; try discriminate.
    apply String.eqb_eq in Heq. now subst.
Qed.

Lemma name_of_tool nm d ps r : prop (tool nm d ps r) "name" = JStr nm.
Proof. reflexivity. Qed.

(** The catalog offers thirteen tools under distinct names, and it offers
    a [labelSelector] for [list_pods] as it does for the other listings. *)
Lemma catalog_names :
  tool_names
  = ["get_cluster_info"; "list_pods"; "list_services"; "list_deployments";
     "describe_pod"; "describe_service"; "describe_deployment"; "get_pod_logs";
     "list_namespaces"; "list_nodes"; "describe_node"; "list_configmaps";
     "describe_configmap"]
  /\ NoDup tool_names.
Proof.
  split; [reflexivity|].
  unfold tool_names, tools. rewrite !map_cons, !name_of_tool. cbn [ToString map].
  repeat (constructor; [simpl; intuition discriminate|]). constructor.
Qed.

Lemma catalog_offers_label_selectors :
  forall tool_name,
    In tool_name ["list_pods"; "list_services"; "list_deployments";
                  "list_configmaps"; "list_nodes"] ->
    exists t,
      descriptor tool_name = Some t /\ In "labelSelector" (declared_properties t).
Proof.
  intros tool_name Hin. simpl in Hin.
  destruct Hin as [<-|[<-|[<-|[<-|[<-|[]]]]]];
    eexists; (split; [reflexivity | simpl; tauto]).
Qed.

(** The labels of the [switch] are the names of the catalog. *)
Lemma unknown_tool_reply request t :
  unknown_tool request ->
  CallToolRequestHandler TypeError_message McpError_message this request t
  = (Normal (error_result
               (JStr ("Error: " ++ McpError_message MethodNotFound
                                     ("Unknown tool: " ++ name request)))), t).
Proof.
  unfold unknown_tool. rewrite descriptor_unknown. intros H.
  unfold CallToolRequestHandler. rewrite switch_default by exact H. reflexivity.
Qed.

Lemma required_fields_of_tool nm d ps r : required_fields (tool nm d ps r) = r.
Proof.
  unfold required_fields, tool. cbn [prop lookup String.eqb Ascii.eqb Bool.eqb andb].
  induction r as [|f r IH]; simpl; [reflexivity | now rewrite IH].
Qed.

Ltac reply_with lemma :=
  eexists; eexists; split;
  [ dispatch; apply try_catch_normal; apply lemma; assumption
  | discriminate ].

Lemma validation_failure_reply request t :
  validation_failure request ->
  exists message t',
    CallToolRequestHandler TypeError_message McpError_message this request t
    = (Normal (error_result (JStr message)), t') /\ message <> "".
Proof.
  intros (tl & field & Hd & Hin & Hf). destruct request as [n args].
  unfold descriptor in Hd. apply find_some in Hd as (Ht & Hname).
  cbn [name arguments] in *. unfold tools in Ht. simpl in Ht.
  repeat (destruct Ht as [<-|Ht];
          [ rewrite name_of_tool in Hname; apply String.eqb_eq in Hname; subst n;
            rewrite required_fields_of_tool in Hin;
            try (destruct Hin as [<-|[]]) | ]);
    try contradiction.
  - reply_with describePod_without_name.
  - reply_with describeService_without_name.
  - reply_with describeDeployment_without_name.
  - reply_with getPodLogs_without_name.
  - reply_with describeNode_without_name.
  - reply_with describeConfigMap_without_name.
Qed.

Ltac nonempty :=
  first [ discriminate
        | apply append_nonempty; discriminate
        | unfold unable_to_connect; apply append_nonempty; discriminate ].

Ltac the_call_made Hin calls_lemma :=
  unfold invoke, handle, CallToolRequestHandler in Hin;
  cbn [switch name arguments String.eqb Ascii.eqb Bool.eqb andb] in Hin;
  rewrite calls_try_catch in Hin by (intro; apply silent_ret);
  rewrite calls_lemma in Hin by assumption;
  destruct Hin as [<-|[]];
  cbn [method params] in *.

Ltac rejected_reply rejected_lemma :=
  eexists; eexists; split;
  [ dispatch; apply try_catch_normal; eapply rejected_lemma; eassumption
  | nonempty ].

Ltac list_case calls_lemma rejected_lemma :=
  match goal with
  | Hin : In _ (snd _) |- _ =>
      the_call_made Hin calls_lemma; rejected_reply rejected_lemma
  end.

Ltac named_case calls_lemma rejected_lemma without_lemma :=
  match goal with
  | Hin : In _ (snd (invoke _ _ _ {| name := _; arguments := ?args |})) |- _ =>
      destruct (truthy (opt args "name")) eqn:Hname;
      [ the_call_made Hin calls_lemma; rejected_reply rejected_lemma
      | reply_with without_lemma ]
  end.

Lemma upstream_failure_reply request t :
  upstream_failure TypeError_message McpError_message this request ->
  exists message t',
    CallToolRequestHandler TypeError_message McpError_message this request t
    = (Normal (error_result (JStr message)), t') /\ message <> "".
Proof.
  intros (call & e & Hin & Hthrow). destruct request as [n args].
  destruct (in_dec string_dec n tool_names) as [Hknown|Hunknown].
  - unfold tool_names, tools in Hknown. rewrite !map_cons, !name_of_tool in Hknown.
    cbn [ToString map In] in Hknown.
    repeat (destruct Hknown as [<-|Hknown]); try contradiction.
    + list_case getClusterInfo_calls getClusterInfo_rejected.
    + list_case listPods_calls listPods_rejected.
    + list_case listServices_calls listServices_rejected.
    + list_case listDeployments_calls listDeployments_rejected.
    + named_case describePod_calls describePod_rejected describePod_without_name.
    + named_case describeService_calls describeService_rejected
        describeService_without_name.
    + named_case describeDeployment_calls describeDeployment_rejected
        describeDeployment_without_name.
    + named_case getPodLogs_calls getPodLogs_rejected getPodLogs_without_name.
    + list_case listNamespaces_calls listNamespaces_rejected.
    + list_case listNodes_calls listNodes_rejected.
    + named_case describeNode_calls describeNode_rejected describeNode_without_name.
    + list_case listConfigMaps_calls listConfigMaps_rejected.
    + named_case describeConfigMap_calls describeConfigMap_rejected
        describeConfigMap_without_name.
  - apply descriptor_unknown in Hunknown.
    eexists; eexists; split; [apply unknown_tool_reply; exact Hunknown | discriminate].
Qed.

(** *** At most one upstream call, and the text of a rejection *)

Ltac no_call_made Hin without_lemma :=
  unfold invoke, handle, CallToolRequestHandler in Hin;
  cbn [switch name arguments String.eqb Ascii.eqb Bool.eqb andb] in Hin;
  rewrite calls_try_catch in Hin by (intro; apply silent_ret);
  rewrite without_lemma in Hin by assumption;
  contradiction Hin.

Ltac rejection_reported rejected_lemma :=
  eexists; split;
  [ unfold invoke, handle; dispatch; apply try_catch_keeps;
    erewrite rejected_lemma by eassumption; reflexivity
  | apply includes_appended ].

Ltac list_reports calls_lemma rejected_lemma :=
  match goal with
  | Hin : In _ (snd _) |- _ =>
      the_call_made Hin calls_lemma; rejection_reported rejected_lemma
  end.

Ltac named_reports calls_lemma rejected_lemma without_lemma :=
  match goal with
  | Hin : In _ (snd (invoke _ _ _ {| name := _; arguments := ?args |})) |- _ =>
      destruct (truthy (opt args "name")) eqn:Hname;
      [ the_call_made Hin calls_lemma; rejection_reported rejected_lemma
      | no_call_made Hin without_lemma ]
  end.

(** Every operation but [list_pods] puts the text of the upstream
    rejection at the end of its message. *)
Lemma rejection_text_is_reported request call e :
  In (name request) tool_names ->
  name request <> "list_pods" ->
  In call (snd (invoke TypeError_message McpError_message this request)) ->
  k8sApi this (method call) (params call) = Throw e ->
  exists message,
    fst (invoke TypeError_message McpError_message this request)
    = Normal (error_result (JStr message)) /\
    includes message (error_text e) = true.
Proof.
  destruct request as [n args]. cbn [name]. intros Hknown Hnot Hin Hthrow.
  unfold tool_names, tools in Hknown. rewrite !map_cons, !name_of_tool in Hknown.
  cbn [ToString map In] in Hknown.
  repeat (destruct Hknown as [<-|Hknown]); try contradiction.
  - list_reports getClusterInfo_calls getClusterInfo_rejected.
  - list_reports listServices_calls listServices_rejected.
  - list_reports listDeployments_calls listDeployments_rejected.
  - named_reports describePod_calls describePod_rejected describePod_without_name.
  - named_reports describeService_calls describeService_rejected
      describeService_without_name.
  - named_reports describeDeployment_calls describeDeployment_rejected
      describeDeployment_without_name.
  - named_reports getPodLogs_calls getPodLogs_rejected getPodLogs_without_name.
  - list_reports listNamespaces_calls listNamespaces_rejected.
  - list_reports listNodes_calls listNodes_rejected.
  - named_reports describeNode_calls describeNode_rejected describeNode_without_name.
  - list_reports listConfigMaps_calls listConfigMaps_rejected.
  - named_reports describeConfigMap_calls describeConfigMap_rejected
      describeConfigMap_without_name.
Qed.

Ltac count_calls calls_lemma :=
  unfold invoke, handle; dispatch;
  rewrite calls_try_catch by (intro; apply silent_ret);
  rewrite calls_lemma by assumption; cbn [snd app length]; lia.

Ltac count_named_calls args calls_lemma without_lemma :=
  destruct (truthy (opt args "name")) eqn:Hname;
  [ count_calls calls_lemma | count_calls without_lemma ].

(** No invocation calls upstream more than once. *)
Lemma at_most_one_upstream_call request :
  (length (snd (invoke TypeError_message McpError_message this request)) <= 1)%nat.
Proof.
  destruct request as [n args].
  destruct (in_dec string_dec n tool_names) as [Hknown|Hunknown].
  - unfold tool_names, tools in Hknown. rewrite !map_cons, !name_of_tool in Hknown.
    cbn [ToString map In] in Hknown.
    repeat (destruct Hknown as [<-|Hknown]); try contradiction.
    + count_calls getClusterInfo_calls.
    + count_calls listPods_calls.
    + count_calls listServices_calls.
    + count_calls listDeployments_calls.
    + count_named_calls args describePod_calls describePod_without_name.
    + count_named_calls args describeService_calls describeService_without_name.
    + count_named_calls args describeDeployment_calls describeDeployment_without_name.
    + count_named_calls args getPodLogs_calls getPodLogs_without_name.
    + count_calls listNamespaces_calls.
    + count_calls listNodes_calls.
    + count_named_calls args describeNode_calls describeNode_without_name.
    + count_calls listConfigMaps_calls.
    + count_named_calls args describeConfigMap_calls describeConfigMap_without_name.
  - apply descriptor_unknown in Hunknown. unfold invoke, handle.
    rewrite (unknown_tool_reply {| name := n; arguments := args |} [] Hunknown).
    cbn [snd length]. lia.
Qed.

(** Every reply of a session is the reply a fresh server gives. *)
Lemma serve_replies rs t :
  fst (serve TypeError_message McpError_message this rs t)
  = map (fun r => fst (handle TypeError_message McpError_message this r [])) rs.
Proof.
  revert t. induction rs as [|r rs IH]; intros t; simpl; [reflexivity|].
  rewrite (handle_uniform r t).
  specialize (IH (t ++ snd (handle TypeError_message McpError_message this r []))%list).
  destruct (serve _ _ _ rs _) as [replies t'']. simpl in *. now rewrite IH.
Qed.

Lemma error_result_is_failure message :
  message <> "" -> failure_envelope (error_result (JStr message)).
Proof. intros H. split; [reflexivity|]. exists message. split; [reflexivity | exact H]. Qed.

Lemma text_result_is_success text : success_envelope (text_result text) text.
Proof. split; reflexivity. Qed.

End Invocation.

(** ** Projections *)

Lemma map_each_pure (f : JsValue -> Completion JsValue) (g : JsValue -> JsValue) l :
  Forall (fun x => f x = Normal (g x)) l -> map_each f l = Normal (map g l).
Proof.
  induction 1 as [|x l Hx _ IH]; simpl; [reflexivity|].
  rewrite Hx, IH. reflexivity.
Qed.

Lemma Array_map_pure TE (f : JsValue -> Completion JsValue) (g : JsValue -> JsValue) l :
  Forall (fun x => nullish x = false) l ->
  (forall x, nullish x = false -> f x = Normal (g x)) ->
  Array_map TE (JArr l) f = Normal (JArr (map g l)).
Proof.
  intros Hl Hf. unfold Array_map. rewrite (map_each_pure f g).
  - reflexivity.
  - eapply Forall_impl; [|exact Hl]. exact Hf.
Qed.

(** A response with an item list under [body] is an object, and so is its
    body. *)
Lemma wrapped_items response items :
  prop (prop response "body") "items" = JArr items ->
  nullish response = false /\ nullish (prop response "body") = false.
Proof.
  intros H. destruct response; try discriminate H.
  split; [reflexivity|].
  simpl in *. destruct (lookup "body" props); try discriminate H; reflexivity.
Qed.

Lemma pod_summary_value TE pod :
  nullish pod = false ->
  pod_summary TE pod
  = Normal (JObj [("name", prop (prop pod "metadata") "name");
                  ("namespace", prop (prop pod "metadata") "namespace");
                  ("status", prop (prop pod "status") "phase");
                  ("ip", prop (prop pod "status") "podIP");
                  ("node", prop (prop pod "spec") "nodeName");
                  ("creationTimestamp", prop (prop pod "metadata") "creationTimestamp")]).
Proof.
  intros H. unfold pod_summary. rewrite !(member_of_value TE pod) by exact H.
  cbn [and_then]. rewrite !opt_is_prop. reflexivity.
Qed.

Lemma listPods_lists TE this args response pods t :
  k8sApi this listNamespacedPod [or_else (opt args "namespace") (JStr "default")]
  = Normal response ->
  prop (prop response "body") "items" = JArr pods ->
  Forall (fun pod => nullish pod = false) pods ->
  fst (listPods TE this args t)
  = Normal (text_result
              (JSON_stringify
                 (JArr (map (fun pod =>
                               JObj [("name", prop (prop pod "metadata") "name");
                                     ("namespace", prop (prop pod "metadata") "namespace");
                                     ("status", prop (prop pod "status") "phase");
                                     ("ip", prop (prop pod "status") "podIP");
                                     ("node", prop (prop pod "spec") "nodeName");
                                     ("creationTimestamp",
                                       prop (prop pod "metadata") "creationTimestamp")])
                          pods)))).
Proof.
  intros Hcall Hitems Hpods.
  destruct (wrapped_items _ _ Hitems) as [Hresponse _].
  unfold listPods, try_catch, bind, await, lift, ret. cbv zeta. rewrite Hcall.
  unfold Object_keys. rewrite Hresponse, (member_of_value TE response) by exact Hresponse.
  rewrite opt_is_prop, Hitems, (or_else_present (JArr pods)) by reflexivity.
  erewrite Array_map_pure; [reflexivity | exact Hpods |].
  intros pod Hpod. apply pod_summary_value, Hpod.
Qed.

Lemma handler_never_throws TE ME this request t :
  exists env, fst (CallToolRequestHandler TE ME this request t) = Normal env.
Proof. unfold CallToolRequestHandler. apply try_catch_returns. Qed.

(* ===================================================================== *)
(** * The claims                                                          *)
(* ===================================================================== *)

(** C1.  Whenever an invocation runs into an error (the tool name is not in
    the catalog, a required argument is missing, or the upstream call is
    rejected), its reply is an envelope with [isError: true] and a single
    text entry holding a non-empty message; the reply is a returned value,
    not an exception; and in any session around it every other request,
    before or after, gets the reply a fresh server gives. *)
Theorem errors_are_reported_as_failures :
  forall TE ME this request before after,
    invocation_error TE ME this request ->
    exists env,
      failure_envelope env /\
      fst (serve TE ME this (before ++ CallTool request :: after) [])
      = (map (fun r => fst (handle TE ME this r [])) before
           ++ Normal env
           :: map (fun r => fst (handle TE ME this r [])) after)%list.
Proof.
  intros TE ME this request before after Herr.
  assert (exists message t',
             CallToolRequestHandler TE ME this request []
             = (Normal (error_result (JStr message)), t') /\ message <> "")
    as (message & t' & Hrun & Hmsg).
  { destruct Herr as [Hu|[Hv|Hr]].
    - eexists; eexists; split; [apply unknown_tool_reply; exact Hu | discriminate].
    - apply validation_failure_reply, Hv.
    - apply upstream_failure_reply, Hr. }
  exists (error_result (JStr message)). split.
  - apply error_result_is_failure, Hmsg.
  - rewrite serve_replies, map_app. cbn [map handle]. rewrite Hrun. reflexivity.
Qed.

Lemma errors_are_reported_as_failures_witness :
  exists env,
    failure_envelope env /\
    fst (serve Sample.TypeError_message Sample.McpError_message Sample.forbidding
           ([ListTools]
              ++ CallTool (Sample.call "list_services" [])
              :: [ListTools; CallTool (Sample.call "list_pods" [])]) [])
    = (map (fun r => fst (handle Sample.TypeError_message Sample.McpError_message
                            Sample.forbidding r [])) [ListTools]
         ++ Normal env
         :: map (fun r => fst (handle Sample.TypeError_message Sample.McpError_message
                                 Sample.forbidding r []))
              [ListTools; CallTool (Sample.call "list_pods" [])])%list.
Proof.
  apply (errors_are_reported_as_failures Sample.TypeError_message
           Sample.McpError_message Sample.forbidding
           (Sample.call "list_services" [])).
  right; right.
  exists {| method := listNamespacedService;
            params := [JStr "default"; JUndefined; JUndefined] |}.
  exists (ErrorInstance Sample.forbidden_text).
  split; [left; reflexivity | reflexivity].
Defined.

(** C2.  When the upstream pod list holds N raw pod objects, [list_pods]
    succeeds with the serialisation of N projected objects, the i-th
    projected from the i-th pod and made of exactly the fields [name],
    [namespace], [status], [ip], [node] and [creationTimestamp], read from
    [metadata.name], [metadata.namespace], [status.phase], [status.podIP],
    [spec.nodeName] and [metadata.creationTimestamp]; with N = 0 the reply
    is the success envelope of the empty sequence. *)
Theorem list_pods_projects_every_pod_in_order :
  forall TE ME this args response pods t,
    k8sApi this listNamespacedPod [or_else (opt args "namespace") (JStr "default")]
    = Normal response ->
    prop (prop response "body") "items" = JArr pods ->
    Forall (fun pod => nullish pod = false) pods ->
    exists projected,
      fst (CallToolRequestHandler TE ME this
             {| name := "list_pods"; arguments := args |} t)
      = Normal (text_result (JSON_stringify (JArr projected)))
      /\ success_envelope (text_result (JSON_stringify (JArr projected)))
           (JSON_stringify (JArr projected))
      /\ length projected = length pods
      /\ (forall i pod,
             nth_error pods i = Some pod ->
             nth_error projected i
             = Some (JObj [("name", prop (prop pod "metadata") "name");
                           ("namespace", prop (prop pod "metadata") "namespace");
                           ("status", prop (prop pod "status") "phase");
                           ("ip", prop (prop pod "status") "podIP");
                           ("node", prop (prop pod "spec") "nodeName");
                           ("creationTimestamp",
                             prop (prop pod "metadata") "creationTimestamp")]))
      /\ (pods = [] -> projected = [] /\ JSON_stringify (JArr projected) = JStr "[]").
Proof.
  intros TE ME this args response pods t Hcall Hitems Hpods.
  eexists. split; [|split; [|split; [|split]]].
  - dispatch. apply try_catch_keeps.
    eapply listPods_lists; eassumption.
  - apply text_result_is_success.
  - apply length_map.
  - intros i pod Hi. rewrite nth_error_map, Hi. reflexivity.
  - intros ->. split; reflexivity.
Qed.

Example list_pods_of_an_empty_namespace :
  invoke Sample.TypeError_message Sample.McpError_message Sample.empty_namespace
    (Sample.call "list_pods" [])
  = (Normal (text_result (JStr "[]")),
     [{| method := listNamespacedPod; params := [JStr "default"] |}]).
Proof. reflexivity. Qed.

Lemma list_pods_projects_every_pod_in_order_witness :
  exists projected,
    fst (CallToolRequestHandler Sample.TypeError_message Sample.McpError_message
           (Sample.healthy "s3cret")
           {| name := "list_pods"; arguments := JObj [] |} [])
    = Normal (text_result (JSON_stringify (JArr projected)))
    /\ length projected = 2.
Proof.
  destruct (list_pods_projects_every_pod_in_order
              Sample.TypeError_message Sample.McpError_message
              (Sample.healthy "s3cret") (JObj [])
              (Sample.list_of [Sample.nginx_pod "nginx-1" "10.244.0.5";
                               Sample.nginx_pod "nginx-2" "10.244.0.6"])
              [Sample.nginx_pod "nginx-1" "10.244.0.5";
               Sample.nginx_pod "nginx-2" "10.244.0.6"]
              [])
    as (projected & Hreply & _ & Hlen & _).
  - reflexivity.
  - reflexivity.
  - repeat constructor.
  - exists projected. split; [exact Hreply | exact Hlen].
Defined.

Lemma missing_or_empty_is_falsy v :
  v = JUndefined \/ v = JNull \/ v = JStr "" -> truthy v = false.
Proof. intros [->|[->| ->]]; reflexivity. Qed.

(** C3.  [describe_pod], [describe_service], [describe_deployment],
    [describe_configmap], [describe_node] and [get_pod_logs], invoked with
    an argument bag that has no name (or a falsy one, such as the empty
    string), answer with the failure envelope saying that the name is
    required, and the record of upstream calls is left as it was. *)
Theorem missing_name_is_refused_without_upstream_call :
  forall TE ME this tool_name args t,
    In tool_name ["describe_pod"; "describe_service"; "describe_deployment";
                  "describe_configmap"; "describe_node"; "get_pod_logs"] ->
    truthy (opt args "name") = false ->
    exists Kind,
      In Kind ["Pod"; "Service"; "Deployment"; "ConfigMap"; "Node"] /\
      CallToolRequestHandler TE ME this
        {| name := tool_name; arguments := args |} t
      = (Normal (error_result (JStr ("Error: " ++ Kind ++ " name is required"))), t).
Proof.
  intros TE ME this tool_name args t Htool Hname.
  simpl in Htool.
  destruct Htool as [<-|[<-|[<-|[<-|[<-|[<-|[]]]]]]].
  - exists "Pod". split; [simpl; tauto|].
    dispatch. apply try_catch_normal, describePod_without_name, Hname.
  - exists "Service". split; [simpl; tauto|].
    dispatch. apply try_catch_normal, describeService_without_name, Hname.
  - exists "Deployment". split; [simpl; tauto|].
    dispatch. apply try_catch_normal, describeDeployment_without_name, Hname.
  - exists "ConfigMap". split; [simpl; tauto|].
    dispatch. apply try_catch_normal, describeConfigMap_without_name, Hname.
  - exists "Node". split; [simpl; tauto|].
    dispatch. apply try_catch_normal, describeNode_without_name, Hname.
  - exists "Pod". split; [simpl; tauto|].
    dispatch. apply try_catch_normal, getPodLogs_without_name, Hname.
Qed.

Lemma missing_name_is_refused_without_upstream_call_witness :
  exists Kind,
    In Kind ["Pod"; "Service"; "Deployment"; "ConfigMap"; "Node"] /\
    CallToolRequestHandler Sample.TypeError_message Sample.McpError_message
      (Sample.healthy "s3cret")
      {| name := "describe_node"; arguments := JObj [("name", JStr "")] |} []
    = (Normal (error_result (JStr ("Error: " ++ Kind ++ " name is required"))), []).
Proof.
  apply (missing_name_is_refused_without_upstream_call
           Sample.TypeError_message Sample.McpError_message (Sample.healthy "s3cret")
           "describe_node" (JObj [("name", JStr "")]) []).
  - simpl. tauto.
  - reflexivity.
Defined.

(** C6.  Without a namespace in the argument bag, [list_pods],
    [list_services], [list_deployments] and [list_configmaps] make their
    upstream list call with the namespace ["default"]; and so do
    [describe_pod], [describe_service], [describe_deployment],
    [describe_configmap] and [get_pod_logs] for the named resource. *)
Theorem absent_namespace_defaults :
  forall TE ME this args t,
    truthy (opt args "namespace") = false ->
    (forall tool_name m,
        In (tool_name, m) [("list_pods", listNamespacedPod);
                           ("list_services", listNamespacedService);
                           ("list_deployments", listNamespacedDeployment);
                           ("list_configmaps", listNamespacedConfigMap)] ->
        exists rest,
          snd (CallToolRequestHandler TE ME this
                 {| name := tool_name; arguments := args |} t)
          = (t ++ [{| method := m; params := JStr "default" :: rest |}])%list)
    /\
    (truthy (opt args "name") = true ->
     forall tool_name m,
       In (tool_name, m) [("describe_pod", readNamespacedPod);
                          ("describe_service", readNamespacedService);
                          ("describe_deployment", readNamespacedDeployment);
                          ("describe_configmap", readNamespacedConfigMap);
                          ("get_pod_logs", readNamespacedPodLog)] ->
       exists rest,
         snd (CallToolRequestHandler TE ME this
                {| name := tool_name; arguments := args |} t)
         = (t ++ [{| method := m;
                     params := prop args "name" :: JStr "default" :: rest |}])%list).
Proof.
  intros TE ME this args t Hns. split.
  - intros tool_name m Hin. simpl in Hin.
    destruct Hin as [E|[E|[E|[E|[]]]]]; inversion E; subst; clear E;
      eexists; dispatch; rewrite calls_try_catch by (intro; apply silent_ret).
    + rewrite listPods_calls, (or_else_absent _ _ Hns). reflexivity.
    + rewrite listServices_calls, (or_else_absent _ _ Hns). reflexivity.
    + rewrite listDeployments_calls, (or_else_absent _ _ Hns). reflexivity.
    + rewrite listConfigMaps_calls, (or_else_absent _ _ Hns). reflexivity.
  - intros Hname tool_name m Hin. simpl in Hin.
    rewrite opt_is_prop in Hns.
    destruct Hin as [E|[E|[E|[E|[E|[]]]]]]; inversion E; subst; clear E;
      eexists; dispatch; rewrite calls_try_catch by (intro; apply silent_ret).
    + rewrite describePod_calls, (or_else_absent _ _ Hns) by exact Hname. reflexivity.
    + rewrite describeService_calls, (or_else_absent _ _ Hns) by exact Hname. reflexivity.
    + rewrite describeDeployment_calls, (or_else_absent _ _ Hns) by exact Hname. reflexivity.
    + rewrite describeConfigMap_calls, (or_else_absent _ _ Hns) by exact Hname. reflexivity.
    + rewrite getPodLogs_calls, (or_else_absent _ _ Hns) by exact Hname. reflexivity.
Qed.

Lemma absent_namespace_defaults_witness :
  (exists rest,
      snd (CallToolRequestHandler Sample.TypeError_message Sample.McpError_message
             (Sample.healthy "s3cret")
             {| name := "list_configmaps";
                arguments := JObj [("name", JStr "nginx-1")] |} [])
      = [{| method := listNamespacedConfigMap; params := JStr "default" :: rest |}])
  /\
  (exists rest,
      snd (CallToolRequestHandler Sample.TypeError_message Sample.McpError_message
             (Sample.healthy "s3cret")
             {| name := "describe_pod";
                arguments := JObj [("name", JStr "nginx-1")] |} [])
      = [{| method := readNamespacedPod;
            params := JStr "nginx-1" :: JStr "default" :: rest |}]).
Proof.
  destruct (absent_namespace_defaults
              Sample.TypeError_message Sample.McpError_message
              (Sample.healthy "s3cret") (JObj [("name", JStr "nginx-1")]) [])
    as [Hlist Hdescribe].
  - reflexivity.
  - split.
    + apply (Hlist "list_configmaps" listNamespacedConfigMap). simpl. tauto.
    + apply (Hdescribe eq_refl "describe_pod" readNamespacedPod). simpl. tauto.
Defined.

Lemma getPodLogs_passes_through TE this args response t :
  truthy (opt args "name") = true ->
  k8sApi this readNamespacedPodLog
    [prop args "name"; or_else (prop args "namespace") (JStr "default");
     JObj [("container", prop args "container"); ("tailLines", prop args "tailLines")]]
  = Normal response ->
  fst (getPodLogs TE this args t) = Normal (text_result response).
Proof.
  intros Hname H. unfold getPodLogs. rewrite Hname. cbn [negb].
  rewrite ?(member_of_value TE args) by (apply named_args_not_nullish, Hname).
  unfold try_catch, bind, await, lift. rewrite H. reflexivity.
Qed.



(** [JSON.stringify] gives a string for everything but [undefined]. *)
Lemma JSON_stringify_defined v :
  v <> JUndefined -> exists json, JSON_stringify v = JStr json.
Proof.
  intros Hv. unfold JSON_stringify.
  destruct v as [| |[|]| | |xs|ps]; try congruence; cbn [SerializeJSONProperty];
    try (eexists; reflexivity);
    match goal with
    | |- context [match ?l with [] => _ | _ :: _ => _ end] =>
        destruct l; eexists; reflexivity
    end.
Qed.

Lemma listNamespaces_raw TE this response t :
  k8sApi this listNamespace [] = Normal response ->
  truthy response = true ->
  truthy (prop (prop response "body") "items") = false ->
  truthy (prop response "items") = false ->
  fst (listNamespaces TE this t)
  = Normal (text_result
              (JStr ("Raw response: " ++ ToString (JSON_stringify response)))).
Proof.
  intros Hcall Hresponse Hwrapped Hdirect.
  unfold listNamespaces, try_catch, bind, await. rewrite Hcall. cbv zeta.
  rewrite Hresponse. cbn [negb].
  rewrite !(member_of_truthy TE response) by exact Hresponse.
  unfold lift at 1. cbv iota beta.
  destruct (truthy (prop response "body")) eqn:Hbody.
  - unfold lift at 1. cbn [and_then].
    rewrite (member_of_truthy TE _ _ Hbody). cbv iota beta.
    rewrite Hwrapped. unfold lift at 1. cbv iota beta.
    rewrite Hdirect. reflexivity.
  - unfold ret at 1. cbv iota beta. rewrite Hbody.
    unfold lift at 1. cbv iota beta. rewrite Hdirect. reflexivity.
Qed.

(** C10, as the code has it.  When the upstream namespace list resolves to
    a truthy response (one that passes the handler's [!response] test, as
    every object does) that holds an item list neither under [body.items]
    nor under [items], [list_namespaces] succeeds, and the text of its reply
    is ["Raw response: "] followed by the JSON serialisation of that
    response. *)
Theorem list_namespaces_falls_back_to_raw_response :
  forall TE ME this args response t,
    k8sApi this listNamespace [] = Normal response ->
    truthy response = true ->
    truthy (prop (prop response "body") "items") = false ->
    truthy (prop response "items") = false ->
    exists env json,
      fst (CallToolRequestHandler TE ME this
             {| name := "list_namespaces"; arguments := args |} t) = Normal env
      /\ JSON_stringify response = JStr json
      /\ success_envelope env (JStr ("Raw response: " ++ json)).
Proof.
  intros TE ME this args response t Hcall Hresponse Hwrapped Hdirect.
  destruct (JSON_stringify_defined response) as (json & Hjson).
  { intros ->. discriminate Hresponse. }
  exists (text_result (JStr ("Raw response: " ++ json))), json.
  split; [|split].
  - dispatch. apply try_catch_keeps.
    rewrite (listNamespaces_raw TE this response t) by assumption.
    rewrite Hjson. reflexivity.
  - exact Hjson.
  - apply text_result_is_success.
Qed.

Lemma list_namespaces_falls_back_to_raw_response_witness :
  exists env json,
    fst (CallToolRequestHandler Sample.TypeError_message Sample.McpError_message
           (Sample.healthy "s3cret")
           {| name := "list_namespaces"; arguments := JUndefined |} []) = Normal env
    /\ JSON_stringify (JObj [("kind", JStr "Status")]) = JStr json
    /\ success_envelope env (JStr ("Raw response: " ++ json)).
Proof.
  apply (list_namespaces_falls_back_to_raw_response
           Sample.TypeError_message Sample.McpError_message (Sample.healthy "s3cret")
           JUndefined (JObj [("kind", JStr "Status")]) []);
    reflexivity.
Defined.

(** C10, as the claim words it, fails on a response that is not [null] and
    yet falsy: the empty string has neither [body.items] nor [items], and
    the handler's [if (!response)] answers it with the error envelope
    ["Error: No response from Kubernetes API"], not with the success
    envelope of the raw response. *)
Lemma list_namespaces_non_null_response_counterexample :
  k8sApi (Sample.answering (JStr "")) listNamespace [] = Normal (JStr "")
  /\ JStr "" <> JNull
  /\ prop (prop (JStr "") "body") "items" = JUndefined
  /\ prop (JStr "") "items" = JUndefined
  /\ fst (CallToolRequestHandler Sample.TypeError_message Sample.McpError_message
            (Sample.answering (JStr ""))
            {| name := "list_namespaces"; arguments := JObj [] |} [])
     = Normal (error_result (JStr "Error: No response from Kubernetes API"))
  /\ fst (CallToolRequestHandler Sample.TypeError_message Sample.McpError_message
            (Sample.answering (JStr ""))
            {| name := "list_namespaces"; arguments := JObj [] |} [])
     <> Normal (text_result
                  (JStr ("Raw response: " ++ ToString (JSON_stringify (JStr ""))))).
Proof.
  repeat split; try reflexivity; discriminate.
Qed.

(** ** Configmaps *)

Lemma configmap_summary_value TE cm :
  nullish cm = false ->
  configmap_summary TE cm
  = Normal (JObj [("name", prop (prop cm "metadata") "name");
                  ("namespace", prop (prop cm "metadata") "namespace");
                  ("dataKeys",
                    JArr (map JStr (own_keys (or_else (prop cm "data") (JObj [])))));
                  ("creationTimestamp",
                    prop (prop cm "metadata") "creationTimestamp")]).
Proof.
  intros H. unfold configmap_summary. rewrite !(member_of_value TE cm) by exact H.
  cbn [and_then]. unfold Object_keys.
  rewrite (or_else_not_nullish (prop cm "data") (JObj [])) by reflexivity.
  cbn [and_then]. rewrite !opt_is_prop. reflexivity.
Qed.

Lemma keys_of_data_map cm :
  data_map_or_absent cm ->
  own_keys (or_else (prop cm "data") (JObj [])) = data_keys cm.
Proof.
  unfold data_map_or_absent, data_keys.
  intros [Habsent|(data & Hdata)].
  - destruct (prop cm "data"); try discriminate Habsent; reflexivity.
  - rewrite Hdata. reflexivity.
Qed.

Lemma listConfigMaps_lists TE this args response cms t :
  k8sApi this listNamespacedConfigMap
    [or_else (opt args "namespace") (JStr "default"); JUndefined;
     opt args "labelSelector"]
  = Normal response ->
  prop (prop response "body") "items" = JArr cms ->
  Forall (fun cm => nullish cm = false) cms ->
  fst (listConfigMaps TE this args t)
  = Normal (text_result
              (JSON_stringify
                 (JArr (map (fun cm =>
                               JObj [("name", prop (prop cm "metadata") "name");
                                     ("namespace", prop (prop cm "metadata") "namespace");
                                     ("dataKeys",
                                       JArr (map JStr
                                               (own_keys (or_else (prop cm "data")
                                                            (JObj [])))));
                                     ("creationTimestamp",
                                       prop (prop cm "metadata") "creationTimestamp")])
                          cms)))).
Proof.
  intros Hcall Hitems Hcms.
  destruct (wrapped_items _ _ Hitems) as [Hresponse Hbody].
  unfold listConfigMaps, try_catch, bind, await, lift, ret. cbv zeta. rewrite Hcall.
  rewrite (member_of_value TE response) by exact Hresponse.
  rewrite (member_of_value TE (prop response "body")) by exact Hbody.
  rewrite Hitems.
  erewrite Array_map_pure; [reflexivity | exact Hcms |].
  intros cm Hcm. apply configmap_summary_value, Hcm.
Qed.

(** What two configmaps that differ only in data values have in common. *)
Lemma same_properties_agree ps qs :
  Forall2 same_property_up_to_data_values ps qs ->
  (forall k, k <> "data" -> lookup k ps = lookup k qs) /\
  own_keys (or_else (lookup "data" ps) (JObj []))
  = own_keys (or_else (lookup "data" qs) (JObj [])).
Proof.
  induction 1 as [|[k v] [k' v'] ps qs (Hk & Hv) _ (IHother & IHdata)];
    [split; reflexivity|].
  cbn [fst snd] in Hk, Hv. subst k'. split.
  - intros j Hj. cbn [lookup]. destruct (String.eqb_spec j k) as [->|_].
    + destruct Hv as [->|(-> & _)]; [reflexivity | congruence].
    + apply IHother, Hj.
  - cbn [lookup]. destruct (String.eqb_spec "data" k) as [<-|_].
    + destruct Hv as [->|(_ & d & d' & -> & -> & Hkeys)]; [reflexivity|].
      unfold or_else, own_keys. cbn [truthy own_entries]. exact Hkeys.
    + exact IHdata.
Qed.

Lemma same_up_to_data_values_summary cm cm' :
  same_up_to_data_values cm cm' ->
  nullish cm = false /\ nullish cm' = false /\
  prop cm "metadata" = prop cm' "metadata" /\
  own_keys (or_else (prop cm "data") (JObj []))
  = own_keys (or_else (prop cm' "data") (JObj [])).
Proof.
  intros [ps qs H]. destruct (same_properties_agree ps qs H) as [Hother Hdata].
  repeat split; try reflexivity.
  - apply Hother. discriminate.
  - exact Hdata.
Qed.

(** C5.  For an upstream configmap list, [list_configmaps] replies with the
    serialisation of one object per configmap made of exactly [name],
    [namespace], [dataKeys] and [creationTimestamp], where [dataKeys] holds
    the keys of the configmap's data map (none when the map is empty or
    absent); and two upstream lists that differ only in the values stored
    under those keys get the same reply. *)
Theorem list_configmaps_shows_keys_never_values :
  forall TE ME this args response cms t,
    k8sApi this listNamespacedConfigMap
      [or_else (opt args "namespace") (JStr "default"); JUndefined;
       opt args "labelSelector"]
    = Normal response ->
    prop (prop response "body") "items" = JArr cms ->
    Forall (fun cm => nullish cm = false /\ data_map_or_absent cm) cms ->
    (exists projected,
        fst (CallToolRequestHandler TE ME this
               {| name := "list_configmaps"; arguments := args |} t)
        = Normal (text_result (JSON_stringify (JArr projected)))
        /\ Forall2
             (fun cm p =>
                p = JObj [("name", prop (prop cm "metadata") "name");
                          ("namespace", prop (prop cm "metadata") "namespace");
                          ("dataKeys", JArr (map JStr (data_keys cm)));
                          ("creationTimestamp",
                            prop (prop cm "metadata") "creationTimestamp")])
             cms projected)
    /\
    (forall this' response' cms' t',
        k8sApi this' listNamespacedConfigMap
          [or_else (opt args "namespace") (JStr "default"); JUndefined;
           opt args "labelSelector"]
        = Normal response' ->
        prop (prop response' "body") "items" = JArr cms' ->
        Forall2 same_up_to_data_values cms cms' ->
        fst (CallToolRequestHandler TE ME this'
               {| name := "list_configmaps"; arguments := args |} t')
        = fst (CallToolRequestHandler TE ME this
                 {| name := "list_configmaps"; arguments := args |} t)).
Proof.
  intros TE ME this args response cms t Hcall Hitems Hcms.
  assert (Hobjects : Forall (fun cm => nullish cm = false) cms).
  { eapply Forall_impl; [|exact Hcms]. intros cm [H _]. exact H. }
  assert (Hreply := listConfigMaps_lists TE this args response cms t Hcall Hitems Hobjects).
  split.
  - eexists. split.
    + dispatch. apply try_catch_keeps. exact Hreply.
    + clear Hreply Hobjects Hitems Hcall.
      induction Hcms as [|cm cms [_ Hdata] _ IH]; cbn [map]; constructor.
      * rewrite (keys_of_data_map cm Hdata). reflexivity.
      * exact IH.
  - intros this' response' cms' t' Hcall' Hitems' Hsame.
    assert (Hobjects' : Forall (fun cm => nullish cm = false) cms').
    { clear - Hsame. induction Hsame as [|cm cm' ? ? H _ IH]; constructor; [|exact IH].
      apply same_up_to_data_values_summary in H. tauto. }
    assert (Hreply' := listConfigMaps_lists TE this' args response' cms' t'
                         Hcall' Hitems' Hobjects').
    dispatch.
    rewrite (try_catch_keeps _ _ _ _ Hreply'), (try_catch_keeps _ _ _ _ Hreply).
    do 4 f_equal. clear - Hsame.
    induction Hsame as [|cm cm' ? ? H _ IH]; cbn [map]; [reflexivity|].
    apply same_up_to_data_values_summary in H.
    destruct H as (_ & _ & Hmeta & Hkeys). rewrite Hmeta, Hkeys, IH. reflexivity.
Qed.

Lemma list_configmaps_shows_keys_never_values_witness :
  fst (CallToolRequestHandler Sample.TypeError_message Sample.McpError_message
         (Sample.healthy "hunter2")
         {| name := "list_configmaps"; arguments := JObj [] |} [])
  = fst (CallToolRequestHandler Sample.TypeError_message Sample.McpError_message
           (Sample.healthy "s3cret")
           {| name := "list_configmaps"; arguments := JObj [] |} []).
Proof.
  destruct (list_configmaps_shows_keys_never_values
              Sample.TypeError_message Sample.McpError_message
              (Sample.healthy "s3cret") (JObj [])
              (Sample.list_of
                 [Sample.configmap "app-config"
                    [("db.password", JStr "s3cret"); ("mode", JStr "production")];
                  Sample.configmap "empty" []])
              [Sample.configmap "app-config"
                 [("db.password", JStr "s3cret"); ("mode", JStr "production")];
               Sample.configmap "empty" []]
              [])
    as [_ Hsame].
  - reflexivity.
  - reflexivity.
  - repeat (apply Forall_cons;
            [split; [reflexivity | right; eexists; reflexivity] | ]).
    apply Forall_nil.
  - apply (Hsame (Sample.healthy "hunter2")
             (Sample.list_of
                [Sample.configmap "app-config"
                   [("db.password", JStr "hunter2"); ("mode", JStr "production")];
                 Sample.configmap "empty" []])
             [Sample.configmap "app-config"
                [("db.password", JStr "hunter2"); ("mode", JStr "production")];
              Sample.configmap "empty" []]
             []).
    + reflexivity.
    + reflexivity.
    + apply Forall2_cons; [|apply Forall2_cons; [|apply Forall2_nil]].
      * constructor. apply Forall2_cons; [|apply Forall2_cons; [|apply Forall2_nil]].
        -- split; [reflexivity | left; reflexivity].
        -- split; [reflexivity|]. right. split; [reflexivity|].
           eexists; eexists. repeat split.
      * constructor. apply Forall2_cons; [|apply Forall2_cons; [|apply Forall2_nil]];
          (split; [reflexivity | left; reflexivity]).
Defined.

(** ** Nodes *)

Lemma strict_eq_str_spec v lit : strict_eq_str v lit = true <-> v = JStr lit.
Proof.
  destruct v; simpl; split; try discriminate.
  - intros H. apply String.eqb_eq in H. now subst.
  - intros H. inversion H. apply String.eqb_refl.
Qed.

Lemma find_first_value TE conditions :
  Forall (fun c => nullish c = false) conditions ->
  find_first (is_Ready_condition TE) conditions
  = Normal match find (fun c => strict_eq_str (prop c "type") "Ready") conditions with
           | Some c => c
           | None => JUndefined
           end.
Proof.
  induction 1 as [|c conditions Hc _ IH]; cbn [find_first find]; [reflexivity|].
  unfold is_Ready_condition at 1. rewrite (member_of_value TE c) by exact Hc.
  cbn [and_then]. destruct (strict_eq_str (prop c "type") "Ready"); [reflexivity | exact IH].
Qed.

(** [find] returns the first element that passes the test. *)
Lemma find_is_first {A} (p : A -> bool) l c :
  find p l = Some c <->
  exists before after,
    l = (before ++ c :: after)%list /\
    Forall (fun x => p x = false) before /\ p c = true.
Proof.
  split.
  - induction l as [|x l IH]; cbn [find]; [discriminate|].
    destruct (p x) eqn:Hx.
    + intros [= ->]. exists [], l. repeat split; [constructor | exact Hx].
    + intros H. destruct (IH H) as (before & after & -> & Hbefore & Hc).
      exists (x :: before), after. repeat split; [constructor; assumption | exact Hc].
  - intros (before & after & -> & Hbefore & Hc).
    induction Hbefore as [|x before Hx _ IH]; cbn [app find].
    + now rewrite Hc.
    + now rewrite Hx.
Qed.

Lemma node_status_value TE node :
  nullish node = false ->
  conditions_well_formed node ->
  node_status TE node
  = Normal (if match find (fun c => strict_eq_str (prop c "type") "Ready")
                        (conditions_of node) with
               | Some c => strict_eq_str (prop c "status") "True"
               | None => false
               end
            then JStr "Ready" else JStr "NotReady").
Proof.
  intros Hnode [Hshape Hentries]. unfold node_status.
  rewrite (member_of_value TE node) by exact Hnode. cbn [and_then].
  unfold conditions_of in *. destruct Hshape as [Habsent|(conditions & Harray)].
  - destruct (opt (prop node "status") "conditions"); try discriminate Habsent;
      reflexivity.
  - rewrite Harray in *. cbn [opt_find].
    rewrite (find_first_value TE conditions Hentries). cbn [and_then].
    rewrite opt_is_prop. destruct (find _ conditions); reflexivity.
Qed.

Lemma filter_map_fst {A B C} (p : A -> bool) (f : A -> C) (l : list (A * B)) :
  map (fun entry => f (fst entry)) (filter (fun entry => p (fst entry)) l)
  = map f (filter p (map fst l)).
Proof.
  induction l as [|[a b] l IH]; cbn [map filter fst]; [reflexivity|].
  destruct (p a); cbn [map fst]; now rewrite IH.
Qed.

Lemma node_roles_value TE node :
  nullish node = false ->
  node_roles TE node
  = Normal (JArr (map (fun key => JStr (drop (String.length role_prefix) key))
                    (filter (fun key => startsWith key role_prefix)
                       (label_keys node)))).
Proof.
  intros Hnode. unfold node_roles, label_keys, Object_entries.
  rewrite (member_of_value TE node) by exact Hnode. cbn [and_then].
  rewrite opt_is_prop.
  rewrite (or_else_not_nullish (prop (prop node "metadata") "labels") (JObj []))
    by reflexivity.
  cbn [and_then]. do 2 f_equal. unfold own_keys.
  rewrite (filter_map_fst (fun key => startsWith key role_prefix)
             (fun key => JStr (replace key role_prefix ""))).
  apply map_ext_in. intros key Hkey. apply filter_In in Hkey as [_ Hkey].
  now rewrite (replace_leading key role_prefix Hkey).
Qed.

Lemma node_summary_value TE node :
  nullish node = false ->
  conditions_well_formed node ->
  exists summary,
    node_summary TE node = Normal summary /\
    node_status TE node = Normal (prop summary "status") /\
    node_roles TE node = Normal (prop summary "roles") /\
    own_keys summary
    = ["name"; "status"; "roles"; "version"; "osImage"; "kernelVersion";
       "creationTimestamp"].
Proof.
  intros Hnode Hconditions. unfold node_summary.
  rewrite (node_status_value TE node Hnode Hconditions),
    (node_roles_value TE node Hnode), !(member_of_value TE node) by exact Hnode.
  cbn [and_then]. eexists. split; [reflexivity|]. repeat split.
Qed.

Lemma map_each_pointwise (f : JsValue -> Completion JsValue) l ys :
  Forall2 (fun x y => f x = Normal y) l ys -> map_each f l = Normal ys.
Proof.
  induction 1 as [|x y l ys Hx _ IH]; cbn [map_each]; [reflexivity|].
  rewrite Hx, IH. reflexivity.
Qed.

(** The reply of [list_nodes] is the serialisation of the summaries of the
    nodes, in order. *)
Lemma list_nodes_serialises_the_summaries TE ME this args response nodes summaries t :
  k8sApi this listNode [JUndefined; opt args "labelSelector"] = Normal response ->
  prop (prop response "body") "items" = JArr nodes ->
  Forall2 (fun node summary => node_summary TE node = Normal summary) nodes summaries ->
  fst (CallToolRequestHandler TE ME this
         {| name := "list_nodes"; arguments := args |} t)
  = Normal (text_result (JSON_stringify (JArr summaries))).
Proof.
  intros Hcall Hitems Hnodes.
  destruct (wrapped_items _ _ Hitems) as [Hresponse Hbody].
  dispatch. apply try_catch_keeps.
  unfold listNodes, try_catch, bind, await, lift, ret. cbv zeta. rewrite Hcall.
  rewrite (member_of_value TE response) by exact Hresponse.
  rewrite (member_of_value TE (prop response "body")) by exact Hbody.
  rewrite Hitems. unfold Array_map.
  rewrite (map_each_pointwise _ _ _ Hnodes). reflexivity.
Qed.

(** C4, as the code has it.  For a raw node whose condition list is an
    array of objects or is absent, the projected status is ["Ready"] exactly
    when the first entry of type ["Ready"] in the list has status ["True"];
    it is ["NotReady"] in every other case (that entry has another status,
    there is no such entry, the list is absent); and the projected roles are
    the label keys that start with ["node-role.kubernetes.io/"], in order,
    with that prefix removed. *)
Theorem list_nodes_readiness_and_roles :
  forall TE node,
    nullish node = false ->
    conditions_well_formed node ->
    exists summary,
      node_summary TE node = Normal summary /\
      (prop summary "status" = JStr "Ready" <->
       exists before c after,
         conditions_of node = (before ++ c :: after)%list /\
         Forall (fun x => ~ is_Ready x) before /\
         is_Ready c /\ prop c "status" = JStr "True") /\
      (prop summary "status" <> JStr "Ready" ->
       prop summary "status" = JStr "NotReady") /\
      prop summary "roles"
      = JArr (map (fun key => JStr (drop (String.length role_prefix) key))
                (filter (fun key => startsWith key role_prefix) (label_keys node)))
      /\
      (forall key, In key (label_keys node) -> startsWith key role_prefix = true ->
                   key = role_prefix ++ drop (String.length role_prefix) key).
Proof.
  intros TE node Hnode Hconditions.
  destruct (node_summary_value TE node Hnode Hconditions)
    as (summary & Hsummary & Hstatus & Hroles & _).
  rewrite (node_status_value TE node Hnode Hconditions) in Hstatus.
  rewrite (node_roles_value TE node Hnode) in Hroles.
  injection Hstatus as Hstatus. injection Hroles as Hroles.
  exists summary. split; [exact Hsummary|]. split; [|split; [|split]].
  - rewrite <- Hstatus. split.
    + destruct (find _ (conditions_of node)) as [c|] eqn:Hfind; [|discriminate].
      destruct (strict_eq_str (prop c "status") "True") eqn:Htrue; [|discriminate].
      intros _. apply find_is_first in Hfind as (before & after & Hsplit & Hbefore & Hc).
      exists before, c, after. repeat split.
      * exact Hsplit.
      * eapply Forall_impl; [|exact Hbefore]. cbv beta. unfold is_Ready.
        intros x Hx Hready. apply strict_eq_str_spec in Hready. congruence.
      * apply strict_eq_str_spec, Hc.
      * apply strict_eq_str_spec, Htrue.
    + intros (before & c & after & Hsplit & Hbefore & Hc & Htrue).
      assert (Hfind : find (fun c => strict_eq_str (prop c "type") "Ready")
                        (conditions_of node) = Some c).
      { apply find_is_first. exists before, after. repeat split.
        - exact Hsplit.
        - eapply Forall_impl; [|exact Hbefore]. cbv beta. unfold is_Ready.
          intros x Hx. destruct (strict_eq_str (prop x "type") "Ready") eqn:E;
            [|reflexivity].
          apply strict_eq_str_spec in E. contradiction.
        - apply strict_eq_str_spec, Hc. }
      rewrite Hfind. apply strict_eq_str_spec in Htrue. now rewrite Htrue.
  - rewrite <- Hstatus.
    destruct (match find _ (conditions_of node) with Some _ => _ | None => _ end);
      [congruence | reflexivity].
  - symmetry. exact Hroles.
  - intros key _ Hkey. apply prefix_drop, Hkey.
Qed.

Lemma list_nodes_readiness_and_roles_witness :
  exists summary,
    node_summary Sample.TypeError_message Sample.ready_node = Normal summary /\
    prop summary "status" = JStr "Ready" /\
    prop summary "roles" = JArr [JStr "control-plane"; JStr "master"].
Proof.
  destruct (list_nodes_readiness_and_roles Sample.TypeError_message Sample.ready_node)
    as (summary & Hsummary & Hstatus & _ & Hroles & _).
  - reflexivity.
  - split; [right; eexists; reflexivity | repeat constructor].
  - exists summary. split; [exact Hsummary|]. split; [|exact Hroles].
    apply Hstatus.
    exists [Sample.condition "MemoryPressure" "False"],
      (Sample.condition "Ready" "True"), [].
    repeat split. constructor; [discriminate | constructor].
Defined.

(** C4, as the claim words it, fails on a node that lists the [Ready]
    condition twice: the list contains an entry of type ["Ready"] with
    status ["True"], and the projected status is ["NotReady"], because
    [find] stops at the first [Ready] entry. *)
Lemma list_nodes_readiness_counterexample :
  (exists c,
      In c (conditions_of Sample.flapping_node) /\
      prop c "type" = JStr "Ready" /\ prop c "status" = JStr "True")
  /\
  exists summary,
    node_summary Sample.TypeError_message Sample.flapping_node = Normal summary /\
    prop summary "status" = JStr "NotReady" /\
    prop summary "status" <> JStr "Ready".
Proof.
  split.
  - exists (Sample.condition "Ready" "True"). split; [|split; reflexivity].
    simpl. tauto.
  - eexists. split; [reflexivity|]. split; [reflexivity | discriminate].
Qed.

(** Where the claim's wording and the code agree: when the entries of type
    ["Ready"] all carry the same status (in particular when there is at
    most one), the status is ["Ready"] exactly when some entry of type
    ["Ready"] has status ["True"]. *)
Lemma readiness_with_consistent_Ready_entries TE node summary :
  nullish node = false ->
  conditions_well_formed node ->
  node_summary TE node = Normal summary ->
  (forall c c', In c (conditions_of node) -> In c' (conditions_of node) ->
                is_Ready c -> is_Ready c' -> prop c "status" = prop c' "status") ->
  (prop summary "status" = JStr "Ready" <->
   exists c, In c (conditions_of node) /\ is_Ready c /\ prop c "status" = JStr "True").
Proof.
  intros Hnode Hconditions Hsummary Hsame.
  destruct (node_summary_value TE node Hnode Hconditions)
    as (summary' & Hsummary' & Hstatus & _).
  rewrite Hsummary in Hsummary'. injection Hsummary' as <-.
  rewrite (node_status_value TE node Hnode Hconditions) in Hstatus.
  injection Hstatus as Hstatus. rewrite <- Hstatus. split.
  - destruct (find _ (conditions_of node)) as [c|] eqn:Hfind; [|discriminate].
    destruct (strict_eq_str (prop c "status") "True") eqn:Htrue; [|discriminate].
    intros _. apply find_some in Hfind as [Hin Hc].
    exists c. repeat split; [exact Hin | |]; apply strict_eq_str_spec; assumption.
  - intros (c & Hin & Hc & Htrue).
    destruct (find _ (conditions_of node)) as [c0|] eqn:Hfind.
    + apply find_some in Hfind as [Hin0 Hc0]. apply strict_eq_str_spec in Hc0.
      rewrite (Hsame c0 c Hin0 Hin Hc0 Hc), Htrue. reflexivity.
    + apply (find_none _ _ Hfind) in Hin. apply strict_eq_str_spec in Hc.
      congruence.
Qed.

(** ** Label selectors *)

(** [list_services], [list_deployments], [list_configmaps] and [list_nodes]
    hand the [labelSelector] of the argument bag to their upstream call;
    it is [undefined], that is no filter, when the bag has none. *)
Lemma label_selector_reaches_upstream TE ME this args t :
  forall tool_name m,
    In (tool_name, m) [("list_services", listNamespacedService);
                       ("list_deployments", listNamespacedDeployment);
                       ("list_configmaps", listNamespacedConfigMap)] ->
    snd (CallToolRequestHandler TE ME this
           {| name := tool_name; arguments := args |} t)
    = (t ++ [{| method := m;
                params := [or_else (opt args "namespace") (JStr "default");
                           JUndefined; opt args "labelSelector"] |}])%list.
Proof.
  intros tool_name m Hin. simpl in Hin.
  destruct Hin as [E|[E|[E|[]]]]; inversion E; subst; clear E;
    dispatch; rewrite calls_try_catch by (intro; apply silent_ret).
  - apply listServices_calls.
  - apply listDeployments_calls.
  - apply listConfigMaps_calls.
Qed.

(** C7, on the code.  The upstream call of [list_pods] carries the namespace
    and nothing else, whatever the argument bag holds: invoked with
    [labelSelector: "app=nginx"], it lists the pods of the namespace without
    any filter, where [list_services] invoked with the same bag passes the
    selector on. *)
Theorem list_pods_drops_the_label_selector :
  (forall TE ME this args t,
      snd (CallToolRequestHandler TE ME this
             {| name := "list_pods"; arguments := args |} t)
      = (t ++ [{| method := listNamespacedPod;
                  params := [or_else (opt args "namespace") (JStr "default")] |}])%list)
  /\
  snd (invoke Sample.TypeError_message Sample.McpError_message
         (Sample.healthy "s3cret")
         (Sample.call "list_pods" [("labelSelector", JStr "app=nginx")]))
  = [{| method := listNamespacedPod; params := [JStr "default"] |}]
  /\
  snd (invoke Sample.TypeError_message Sample.McpError_message
         (Sample.healthy "s3cret")
         (Sample.call "list_services" [("labelSelector", JStr "app=nginx")]))
  = [{| method := listNamespacedService;
        params := [JStr "default"; JUndefined; JStr "app=nginx"] |}].
Proof.
  split; [|split; reflexivity].
  intros TE ME this args t. dispatch.
  rewrite calls_try_catch by (intro; apply silent_ret).
  apply listPods_calls.
Qed.

(** ** Upstream rejections *)

Lemma list_pods_rejection_reply TE ME this args e t :
  k8sApi this listNamespacedPod [or_else (opt args "namespace") (JStr "default")]
  = Throw e ->
  fst (CallToolRequestHandler TE ME this
         {| name := "list_pods"; arguments := args |} t)
  = Normal (error_result
              (JStr (unable_to_connect
                       (opt (getCluster (kc this) (getCurrentContext (kc this)))
                          "server")))).
Proof.
  intros Hthrow. dispatch. apply try_catch_keeps.
  rewrite (listPods_rejected TE this args t e Hthrow). reflexivity.
Qed.

(** C8, on the code.  When the cluster answers [list_pods] with a
    rejection, the reply is the connectivity hint built from the kubeconfig
    alone: the text of the rejection is not in it.  [list_services], given
    the same rejection, reports it.  Either way one upstream call was made. *)
Theorem list_pods_hides_the_upstream_rejection :
  (exists message,
      invoke Sample.TypeError_message Sample.McpError_message
        Sample.forbidding (Sample.call "list_pods" [])
      = (Normal (error_result (JStr message)),
         [{| method := listNamespacedPod; params := [JStr "default"] |}]) /\
      message = unable_to_connect (JStr "https://192.168.49.2:8443") /\
      includes message Sample.forbidden_text = false)
  /\
  (exists message,
      invoke Sample.TypeError_message Sample.McpError_message
        Sample.forbidding (Sample.call "list_services" [])
      = (Normal (error_result (JStr message)),
         [{| method := listNamespacedService;
             params := [JStr "default"; JUndefined; JUndefined] |}]) /\
      includes message Sample.forbidden_text = true).
Proof.
  split.
  - eexists. split; [reflexivity|]. split; [reflexivity | vm_compute; reflexivity].
  - eexists. split; [reflexivity | vm_compute; reflexivity].
Qed.

(* ===================================================================== *)
(** * Further properties of the dispatcher and of the handlers            *)
(* ===================================================================== *)

(** ** Every reply is an envelope *)

Lemma replying_ret env : reply_envelope env -> replying (ret env).
Proof. intros H t. exact H. Qed.

Lemma replying_throw e : replying (throw e).
Proof. intros t. exact I. Qed.

Lemma replying_bind {A} (m : M A) (k : A -> M JsValue) :
  (forall a, replying (k a)) -> replying (bind m k).
Proof.
  intros Hk t. unfold bind. destruct (m t) as [[a|e] t']; [apply Hk | exact I].
Qed.

Lemma replying_try_catch (body : M JsValue) recover :
  replying body -> (forall e, replying (recover e)) -> replying (try_catch body recover).
Proof.
  intros Hb Hr t. unfold try_catch. specialize (Hb t).
  destruct (body t) as [[a|e] t']; [exact Hb | apply Hr].
Qed.

Lemma text_result_replies text : reply_envelope (text_result text).
Proof. left. eexists. reflexivity. Qed.

Lemma error_result_replies message :
  message <> "" -> reply_envelope (error_result (JStr message)).
Proof. intros H. right. eexists. split; [reflexivity | exact H]. Qed.

Ltac envelopes :=
  repeat first
    [ apply replying_throw
    | apply replying_ret;
      first [ apply text_result_replies
            | apply error_result_replies;
              first [ discriminate
                    | apply append_nonempty; discriminate
                    | unfold unable_to_connect; apply append_nonempty; discriminate ] ]
    | apply replying_try_catch; [|intro]
    | apply replying_bind; intro
    | match goal with
      | |- replying (if ?b then _ else _) => destruct b
      end
    | progress cbv zeta ].

Lemma handlers_reply TE ME this request :
  replying (CallToolRequestHandler TE ME this request).
Proof.
  unfold CallToolRequestHandler.
  apply replying_try_catch; [|intro; envelopes].
  apply switch_preserves; [|apply replying_throw].
  repeat constructor; cbn [snd].
  - unfold getClusterInfo. envelopes.
  - unfold listPods. envelopes.
  - unfold listServices. envelopes.
  - unfold listDeployments. envelopes.
  - unfold describePod. envelopes.
  - unfold describeService. envelopes.
  - unfold describeDeployment. envelopes.
  - unfold getPodLogs. envelopes.
  - unfold listNamespaces. envelopes.
  - unfold listNodes. envelopes.
  - unfold describeNode. envelopes.
  - unfold listConfigMaps. envelopes.
  - unfold describeConfigMap. envelopes.
Qed.

(** X1.  Whatever the tool name, the argument bag and the behaviour of the
    cluster, an invocation returns (it does not throw), and what it returns
    is one of the two envelopes: a single text entry, or a single text entry
    holding a non-empty string together with [isError: true]. *)
Theorem every_invocation_returns_an_envelope :
  forall TE ME this request t,
    exists env,
      fst (CallToolRequestHandler TE ME this request t) = Normal env /\
      reply_envelope env.
Proof.
  intros TE ME this request t.
  destruct (handler_never_throws TE ME this request t) as (env & Henv).
  exists env. split; [exact Henv|].
  pose proof (handlers_reply TE ME this request t) as H.
  rewrite Henv in H. exact H.
Qed.

(** ** Names outside the catalog *)

(** X2.  A name that is not one of the thirteen names of the catalog
    (names are compared exactly, so a different capitalisation is another
    name) is answered with the error envelope of the [MethodNotFound]
    error for that name, and nothing is called upstream. *)
Theorem unknown_names_are_refused_without_upstream_call :
  forall TE ME this request t,
    ~ In (name request) tool_names ->
    CallToolRequestHandler TE ME this request t
    = (Normal (error_result
                 (JStr ("Error: " ++ ME MethodNotFound
                                       ("Unknown tool: " ++ name request)))), t).
Proof.
  intros TE ME this request t H.
  apply unknown_tool_reply. apply descriptor_unknown, H.
Qed.

Lemma unknown_names_are_refused_without_upstream_call_witness :
  CallToolRequestHandler Sample.TypeError_message Sample.McpError_message
    (Sample.healthy "s3cret") (Sample.call "List_Pods" []) []
  = (Normal (error_result
               (JStr "Error: MCP error -32601: Unknown tool: List_Pods")), []).
Proof.
  apply (unknown_names_are_refused_without_upstream_call
           Sample.TypeError_message Sample.McpError_message
           (Sample.healthy "s3cret") (Sample.call "List_Pods" []) []).
  simpl. intuition discriminate.
Defined.

(** ** Upstream calls of a session *)

Lemma serve_calls TE ME this rs t :
  snd (serve TE ME this rs t)
  = (t ++ concat (map (fresh_calls TE ME this) rs))%list.
Proof.
  revert t. induction rs as [|r rs IH]; intros t; cbn [serve map concat].
  - now rewrite app_nil_r.
  - rewrite (handle_uniform TE ME this r t).
    specialize (IH (t ++ snd (handle TE ME this r []))%list).
    destruct (serve TE ME this rs _) as [replies t'']. cbn [snd] in *.
    rewrite IH. unfold fresh_calls. now rewrite app_assoc.
Qed.

Lemma fresh_calls_bound TE ME this r :
  (length (fresh_calls TE ME this r) <= (if is_CallTool r then 1 else 0))%nat.
Proof.
  destruct r as [|request]; cbn [is_CallTool].
  - apply Nat.le_refl.
  - apply (at_most_one_upstream_call TE ME this request).
Qed.

(** X3.  A session makes at most one upstream call per tool invocation
    and none for listing the tools: the calls on record after serving a
    sequence of requests number at most the tool invocations among them,
    and they are the calls each request makes on a fresh server, in
    order. *)
Theorem sessions_call_upstream_at_most_once_per_invocation :
  forall TE ME this rs,
    snd (serve TE ME this rs []) = concat (map (fresh_calls TE ME this) rs) /\
    (length (snd (serve TE ME this rs [])) <= length (filter is_CallTool rs))%nat.
Proof.
  intros TE ME this rs. rewrite serve_calls. cbn [app]. split; [reflexivity|].
  induction rs as [|r rs IH]; cbn [map concat filter]; [apply Nat.le_refl|].
  rewrite length_app. pose proof (fresh_calls_bound TE ME this r) as Hr.
  destruct (is_CallTool r); cbn [length]; lia.
Qed.

(** ** What a rejection looks like to the caller *)

(** X4.  For every tool of the catalog other than [list_pods], when the
    upstream call of an invocation is rejected, the reply is an error
    envelope whose message contains the text of the rejection
    ([error.message] of an [Error], [String(error)] of anything else). *)
Theorem rejections_are_reported_with_their_text :
  forall TE ME this request call e,
    In (name request) tool_names ->
    name request <> "list_pods" ->
    In call (snd (invoke TE ME this request)) ->
    k8sApi this (method call) (params call) = Throw e ->
    exists message,
      fst (invoke TE ME this request) = Normal (error_result (JStr message)) /\
      includes message (error_text e) = true.
Proof.
  intros TE ME this request call e Hknown Hnot Hin Hthrow.
  exact (rejection_text_is_reported TE ME this request call e Hknown Hnot Hin Hthrow).
Qed.

Lemma rejections_are_reported_with_their_text_witness :
  exists message,
    fst (invoke Sample.TypeError_message Sample.McpError_message Sample.forbidding
           (Sample.call "describe_node" [("name", JStr "minikube")]))
    = Normal (error_result (JStr message)) /\
    includes message Sample.forbidden_text = true.
Proof.
  apply (rejections_are_reported_with_their_text
           Sample.TypeError_message Sample.McpError_message Sample.forbidding
           (Sample.call "describe_node" [("name", JStr "minikube")])
           {| method := readNode; params := [JStr "minikube"] |}
           (ErrorInstance Sample.forbidden_text)).
  - simpl. tauto.
  - discriminate.
  - left. reflexivity.
  - reflexivity.
Defined.

(** ** The catalog and the handlers agree *)

Lemma descriptor_listed n t :
  descriptor n = Some t ->
  In (n, t) (map (fun t => (ToString (prop t "name"), t)) tools).
Proof.
  unfold descriptor. intros H. apply find_some in H as (Ht & Hn).
  apply strict_eq_str_spec in Hn. apply in_map_iff. exists t.
  rewrite Hn. split; [reflexivity | exact Ht].
Qed.

Lemma appended_call_differs {A} (t : list A) c : (t ++ [c])%list <> t.
Proof.
  intros H. apply (f_equal (@length A)) in H. rewrite length_app in H.
  cbn [length] in H. lia.
Qed.

Ltac each_tool H :=
  apply descriptor_listed in H; unfold tools in H;
  rewrite !map_cons, !name_of_tool in H; cbn [ToString map In] in H;
  repeat (destruct H as [H|H]; [inversion H; subst; clear H|]);
  try contradiction.

Ltac calls_of lemma :=
  dispatch; rewrite calls_try_catch by (intro; apply silent_ret);
  rewrite lemma by assumption; cbn [snd].

Ltac required_and_silent lemma :=
  rewrite required_fields_of_tool; calls_of lemma;
  split; [reflexivity | intros _; simpl; tauto].

Ltac optional_and_calling lemma :=
  rewrite required_fields_of_tool; calls_of lemma;
  split; [intros [] | intros H; exfalso; exact (appended_call_differs _ _ H)].

(** X5.  The [required] lists of the catalog and the guards of the handlers
    say the same thing: for a tool of the catalog invoked without a name
    (absent, or falsy), the catalog lists [name] as required exactly when
    the invocation is answered without any upstream call. *)
Theorem catalog_requires_name_exactly_where_handlers_check_it :
  forall TE ME this tool_name t args tr,
    descriptor tool_name = Some t ->
    truthy (opt args "name") = false ->
    (In "name" (required_fields t) <->
     snd (CallToolRequestHandler TE ME this
            {| name := tool_name; arguments := args |} tr) = tr).
Proof.
  intros TE ME this tool_name t args tr Hd Hname. each_tool Hd.
  - optional_and_calling getClusterInfo_calls.
  - optional_and_calling listPods_calls.
  - optional_and_calling listServices_calls.
  - optional_and_calling listDeployments_calls.
  - required_and_silent describePod_without_name.
  - required_and_silent describeService_without_name.
  - required_and_silent describeDeployment_without_name.
  - required_and_silent getPodLogs_without_name.
  - optional_and_calling listNamespaces_calls.
  - optional_and_calling listNodes_calls.
  - required_and_silent describeNode_without_name.
  - optional_and_calling listConfigMaps_calls.
  - required_and_silent describeConfigMap_without_name.
Qed.

Lemma catalog_requires_name_exactly_where_handlers_check_it_witness :
  exists t,
    descriptor "get_pod_logs" = Some t /\
    In "name" (required_fields t) /\
    snd (CallToolRequestHandler Sample.TypeError_message Sample.McpError_message
           (Sample.healthy "s3cret")
           {| name := "get_pod_logs"; arguments := JObj [("tailLines", JNum 10)] |} [])
    = [].
Proof.
  eexists. split; [reflexivity|].
  assert (H := catalog_requires_name_exactly_where_handlers_check_it
                 Sample.TypeError_message Sample.McpError_message
                 (Sample.healthy "s3cret") "get_pod_logs" _
                 (JObj [("tailLines", JNum 10)]) [] eq_refl eq_refl).
  split; [simpl; tauto | apply H; simpl; tauto].
Defined.

(** ** Arguments the catalog does not declare *)

Ltac same_fields H :=
  repeat match goal with
         | |- context [opt ?a ?k] =>
             match type of H with
             | forall k', _ -> opt a k' = _ => rewrite (H k) by (simpl; tauto)
             end
         end.

Ltac named_same_fields TE H args args' :=
  same_fields H;
  destruct (truthy (opt args' "name")) eqn:Hname; cbn [negb]; [|reflexivity];
  assert (Hname0 : truthy (opt args "name") = true)
    by (rewrite (H "name") by (simpl; tauto); exact Hname);
  rewrite !(member_of_value TE args) by (apply named_args_not_nullish, Hname0);
  rewrite !(member_of_value TE args') by (apply named_args_not_nullish, Hname);
  rewrite <- !opt_is_prop; same_fields H; reflexivity.

Lemma same_declared_fields_same_run TE ME this tool_name t args args' tr :
  descriptor tool_name = Some t ->
  (forall k, In k (declared_properties t) -> opt args k = opt args' k) ->
  CallToolRequestHandler TE ME this {| name := tool_name; arguments := args |} tr
  = CallToolRequestHandler TE ME this {| name := tool_name; arguments := args' |} tr.
Proof.
  intros Hd Hsame. each_tool Hd;
    unfold declared_properties, tool in Hsame;
    cbn [prop lookup String.eqb Ascii.eqb Bool.eqb andb own_keys own_entries
           map fst] in Hsame;
    dispatch; f_equal.
  - unfold listPods. same_fields Hsame. reflexivity.
  - unfold listServices. same_fields Hsame. reflexivity.
  - unfold listDeployments. same_fields Hsame. reflexivity.
  - unfold describePod. named_same_fields TE Hsame args args'.
  - unfold describeService. named_same_fields TE Hsame args args'.
  - unfold describeDeployment. named_same_fields TE Hsame args args'.
  - unfold getPodLogs. named_same_fields TE Hsame args args'.
  - unfold listNodes. same_fields Hsame. reflexivity.
  - unfold describeNode. named_same_fields TE Hsame args args'.
  - unfold listConfigMaps. same_fields Hsame. reflexivity.
  - unfold describeConfigMap. named_same_fields TE Hsame args args'.
Qed.


(** X6.  An invocation depends on its argument bag only through the
    fields the tool's [inputSchema] declares: two bags that agree on every
    declared property get the same reply and cause the same upstream
    call, whatever else they hold. *)
Theorem undeclared_arguments_are_ignored :
  forall TE ME this tool_name t args args' tr,
    descriptor tool_name = Some t ->
    (forall k, In k (declared_properties t) -> opt args k = opt args' k) ->
    CallToolRequestHandler TE ME this {| name := tool_name; arguments := args |} tr
    = CallToolRequestHandler TE ME this {| name := tool_name; arguments := args' |} tr.
Proof.
  intros TE ME this tool_name t args args' tr Hd Hsame.
  exact (same_declared_fields_same_run TE ME this tool_name t args args' tr Hd Hsame).
Qed.

Lemma undeclared_arguments_are_ignored_witness :
  CallToolRequestHandler Sample.TypeError_message Sample.McpError_message
    (Sample.healthy "s3cret")
    {| name := "describe_node";
       arguments := JObj [("name", JStr "minikube"); ("namespace", JStr "kube-system")] |}
    []
  = CallToolRequestHandler Sample.TypeError_message Sample.McpError_message
      (Sample.healthy "s3cret")
      {| name := "describe_node"; arguments := JObj [("name", JStr "minikube")] |} [].
Proof.
  apply (undeclared_arguments_are_ignored
           Sample.TypeError_message Sample.McpError_message (Sample.healthy "s3cret")
           "describe_node"
           (tool "describe_node" "Get detailed information about a node"
              [("name", string_property "Node name")] ["name"])).
  - reflexivity.
  - intros k [<-|[]]. reflexivity.
Defined.

(** ** The two replies of [list_pods] *)

Lemma Array_map_returns_an_array TE v f r :
  Array_map TE v f = Normal r -> exists ys, r = JArr ys.
Proof.
  unfold Array_map. destruct v; try discriminate.
  destruct (map_each f elems); simpl; [|discriminate].
  intros [= <-]. eexists. reflexivity.
Qed.

(** X7.  [list_pods] has two replies only: the serialisation of a list, or
    the connectivity hint that names the server of the current kubeconfig
    context.  Its outer [catch], which would report
    ["Error listing pods: ..."], is never reached, whatever the cluster
    does. *)
Theorem list_pods_replies_with_a_list_or_the_connection_hint :
  forall TE ME this args t,
    (exists pods,
        fst (CallToolRequestHandler TE ME this
               {| name := "list_pods"; arguments := args |} t)
        = Normal (text_result (JSON_stringify (JArr pods))))
    \/
    fst (CallToolRequestHandler TE ME this
           {| name := "list_pods"; arguments := args |} t)
    = Normal (error_result
                (JStr (unable_to_connect
                         (opt (getCluster (kc this) (getCurrentContext (kc this)))
                            "server")))).
Proof.
  intros TE ME this args t. dispatch.
  unfold listPods, try_catch, bind, await, lift, ret. cbv zeta.
  destruct (k8sApi this listNamespacedPod _) as [response|e]; [|right; reflexivity].
  destruct (Object_keys TE response); [|right; reflexivity].
  destruct (member TE response "body") as [body|e]; [|right; reflexivity].
  destruct (Array_map TE _ (pod_summary TE)) as [pods|e] eqn:Hmap; [|right; reflexivity].
  apply Array_map_returns_an_array in Hmap as (ys & ->).
  left. exists ys. reflexivity.
Qed.

(** ** Answers without an item list *)

Ltac answered Ha calls_lemma :=
  destruct Ha as (call & Hcalls & Hanswer);
  unfold invoke, handle in Hcalls; revert Hcalls;
  dispatch; rewrite calls_try_catch by (intro; apply silent_ret);
  rewrite calls_lemma by assumption; cbn [app snd];
  intros Hcalls; inversion Hcalls; subst call; clear Hcalls;
  cbn [method params] in Hanswer.

Ltac answered_named Ha args calls_lemma without_lemma :=
  destruct (truthy (opt args "name")) eqn:Hname;
  [ answered Ha calls_lemma
  | exfalso; destruct Ha as (call & Hcalls & _);
    unfold invoke, handle in Hcalls; revert Hcalls;
    dispatch; rewrite calls_try_catch by (intro; apply silent_ret);
    rewrite without_lemma by assumption; discriminate ].

Lemma member_of_null TE v k :
  nullish v = true -> member TE v k = Throw (ErrorInstance (TE k)).
Proof. unfold member. intros ->. reflexivity. Qed.

(** X8.  When the cluster answers [list_pods] with an object that has no
    item list under [body.items] (no [body], no [items], or a falsy one),
    the reply is the success envelope of the empty list, ["[]"]. *)
Theorem list_pods_without_items_is_the_empty_list :
  forall TE ME this args response t,
    upstream_answer TE ME this {| name := "list_pods"; arguments := args |} response ->
    nullish response = false ->
    truthy (prop (prop response "body") "items") = false ->
    fst (CallToolRequestHandler TE ME this
           {| name := "list_pods"; arguments := args |} t)
    = Normal (text_result (JStr "[]")).
Proof.
  intros TE ME this args response t Ha Hresponse Hitems.
  answered Ha listPods_calls.
  dispatch. apply try_catch_keeps.
  unfold listPods, try_catch, bind, await, lift, ret. cbv zeta. rewrite Hanswer.
  unfold Object_keys. rewrite Hresponse, (member_of_value TE response) by exact Hresponse.
  rewrite opt_is_prop, (or_else_absent _ _ Hitems). reflexivity.
Qed.

Lemma list_pods_without_items_is_the_empty_list_witness :
  fst (CallToolRequestHandler Sample.TypeError_message Sample.McpError_message
         (Sample.answering (JObj [("body", JObj [("kind", JStr "PodList")])]))
         {| name := "list_pods"; arguments := JObj [] |} [])
  = Normal (text_result (JStr "[]")).
Proof.
  apply (list_pods_without_items_is_the_empty_list
           Sample.TypeError_message Sample.McpError_message
           (Sample.answering (JObj [("body", JObj [("kind", JStr "PodList")])]))
           (JObj []) (JObj [("body", JObj [("kind", JStr "PodList")])]) []).
  - eexists. split; reflexivity.
  - reflexivity.
  - reflexivity.
Defined.

Ltac no_item_list TE Hanswer Hresponse Hitems :=
  dispatch;
  match goal with
  | |- context [try_catch (?h _ _ _)] => unfold h
  end;
  unfold try_catch, bind, await, lift, ret; cbv zeta; rewrite Hanswer;
  rewrite (member_of_value TE _ "body" Hresponse);
  match goal with
  | |- context [member TE ?body "items"] =>
      destruct (nullish body) eqn:Hbody;
      [ rewrite (member_of_null TE body "items" Hbody);
        exists "items"; split; [simpl; tauto | reflexivity]
      | rewrite (member_of_value TE body "items" Hbody);
        destruct (prop body "items") eqn:Hvalue;
        try (exists "map"; split; [simpl; tauto | reflexivity]);
        exfalso; exact (Hitems _ eq_refl) ]
  end.

(** X9.  The other listings have no such fallback: when the cluster answers
    [list_services], [list_deployments], [list_configmaps] or [list_nodes]
    with an object whose [body.items] is not an array, the reply is the
    error envelope of the [TypeError] raised on reading [items] or on calling
    [map]. *)
Theorem listings_without_items_fail :
  forall TE ME this tool_name args response t,
    In tool_name ["list_services"; "list_deployments"; "list_configmaps";
                  "list_nodes"] ->
    upstream_answer TE ME this {| name := tool_name; arguments := args |} response ->
    nullish response = false ->
    (forall items, prop (prop response "body") "items" <> JArr items) ->
    exists k,
      In k ["items"; "map"] /\
      fst (CallToolRequestHandler TE ME this
             {| name := tool_name; arguments := args |} t)
      = Normal (error_result
                  (JStr ("Error listing " ++ drop 5 tool_name ++ ": " ++ TE k))).
Proof.
  intros TE ME this tool_name args response t Htool Ha Hresponse Hitems.
  simpl in Htool. destruct Htool as [<-|[<-|[<-|[<-|[]]]]].
  - answered Ha listServices_calls. no_item_list TE Hanswer Hresponse Hitems.
  - answered Ha listDeployments_calls. no_item_list TE Hanswer Hresponse Hitems.
  - answered Ha listConfigMaps_calls. no_item_list TE Hanswer Hresponse Hitems.
  - answered Ha listNodes_calls. no_item_list TE Hanswer Hresponse Hitems.
Qed.

Lemma listings_without_items_fail_witness :
  exists k,
    In k ["items"; "map"] /\
    fst (CallToolRequestHandler Sample.TypeError_message Sample.McpError_message
           (Sample.answering (JObj [("body", JObj [("kind", JStr "ServiceList")])]))
           {| name := "list_services"; arguments := JObj [] |} [])
    = Normal (error_result
                (JStr ("Error listing " ++ drop 5 "list_services" ++ ": "
                         ++ Sample.TypeError_message k))).
Proof.
  apply (listings_without_items_fail
           Sample.TypeError_message Sample.McpError_message
           (Sample.answering (JObj [("body", JObj [("kind", JStr "ServiceList")])]))
           "list_services" (JObj [])
           (JObj [("body", JObj [("kind", JStr "ServiceList")])]) []).
  - simpl. tauto.
  - eexists. split; reflexivity.
  - reflexivity.
  - intros items H. discriminate H.
Defined.

(** ** Services and deployments *)

Lemma service_summary_value TE service :
  nullish service = false ->
  service_summary TE service
  = Normal (JObj [("name", prop (prop service "metadata") "name");
                  ("namespace", prop (prop service "metadata") "namespace");
                  ("type", prop (prop service "spec") "type");
                  ("clusterIP", prop (prop service "spec") "clusterIP");
                  ("ports", prop (prop service "spec") "ports");
                  ("selector", prop (prop service "spec") "selector");
                  ("creationTimestamp",
                    prop (prop service "metadata") "creationTimestamp")]).
Proof.
  intros H. unfold service_summary. rewrite !(member_of_value TE service) by exact H.
  cbn [and_then]. rewrite !opt_is_prop. reflexivity.
Qed.

Lemma deployment_summary_value TE deployment :
  nullish deployment = false ->
  deployment_summary TE deployment
  = Normal (JObj [("name", prop (prop deployment "metadata") "name");
                  ("namespace", prop (prop deployment "metadata") "namespace");
                  ("replicas",
                    JObj [("desired", prop (prop deployment "spec") "replicas");
                          ("available",
                            prop (prop deployment "status") "availableReplicas");
                          ("ready", prop (prop deployment "status") "readyReplicas")]);
                  ("selector", prop (prop deployment "spec") "selector");
                  ("creationTimestamp",
                    prop (prop deployment "metadata") "creationTimestamp")]).
Proof.
  intros H. unfold deployment_summary.
  rewrite !(member_of_value TE deployment) by exact H.
  cbn [and_then]. rewrite !opt_is_prop. reflexivity.
Qed.

Ltac listing TE Hanswer Hitems Hall summary_value :=
  destruct (wrapped_items _ _ Hitems) as [Hresponse Hbody];
  dispatch; apply try_catch_keeps;
  match goal with
  | |- fst (?h _ _ _ _) = _ => unfold h
  end;
  unfold try_catch, bind, await, lift, ret; cbv zeta; rewrite Hanswer;
  rewrite (member_of_value TE _ "body" Hresponse);
  rewrite (member_of_value TE _ "items" Hbody);
  rewrite Hitems;
  erewrite Array_map_pure;
  [ reflexivity | exact Hall | intros x Hx; apply summary_value, Hx ].

(** X10.  When the upstream service list holds N service objects,
    [list_services] succeeds with the serialisation of N objects in the same
    order, each made of [name], [namespace], [type], [clusterIP], [ports],
    [selector] and [creationTimestamp]; [ports] and [selector] are the
    upstream values, untouched. *)
Theorem list_services_projects_every_service_in_order :
  forall TE ME this args response services t,
    upstream_answer TE ME this {| name := "list_services"; arguments := args |}
      response ->
    prop (prop response "body") "items" = JArr services ->
    Forall (fun service => nullish service = false) services ->
    fst (CallToolRequestHandler TE ME this
           {| name := "list_services"; arguments := args |} t)
    = Normal
        (text_result
           (JSON_stringify
              (JArr (map (fun service =>
                            JObj [("name", prop (prop service "metadata") "name");
                                  ("namespace",
                                    prop (prop service "metadata") "namespace");
                                  ("type", prop (prop service "spec") "type");
                                  ("clusterIP", prop (prop service "spec") "clusterIP");
                                  ("ports", prop (prop service "spec") "ports");
                                  ("selector", prop (prop service "spec") "selector");
                                  ("creationTimestamp",
                                    prop (prop service "metadata") "creationTimestamp")])
                       services)))).
Proof.
  intros TE ME this args response services t Ha Hitems Hall.
  answered Ha listServices_calls.
  listing TE Hanswer Hitems Hall service_summary_value.
Qed.

Lemma list_services_projects_every_service_in_order_witness :
  fst (CallToolRequestHandler Sample.TypeError_message Sample.McpError_message
         (Sample.answering
            (Sample.list_of
               [JObj [("metadata", Sample.metadata "nginx");
                      ("spec", JObj [("type", JStr "ClusterIP");
                                     ("ports", JArr [JObj [("port", JNum 80)]])])]]))
         {| name := "list_services"; arguments := JObj [] |} [])
  = Normal
      (text_result
         (JSON_stringify
            (JArr [JObj [("name", JStr "nginx");
                         ("namespace", JStr "default");
                         ("type", JStr "ClusterIP");
                         ("clusterIP", JUndefined);
                         ("ports", JArr [JObj [("port", JNum 80)]]);
                         ("selector", JUndefined);
                         ("creationTimestamp", JStr "2025-03-01T10:00:00.000Z")]]))).
Proof.
  apply (list_services_projects_every_service_in_order
           Sample.TypeError_message Sample.McpError_message
           (Sample.answering
              (Sample.list_of
                 [JObj [("metadata", Sample.metadata "nginx");
                        ("spec", JObj [("type", JStr "ClusterIP");
                                       ("ports", JArr [JObj [("port", JNum 80)]])])]]))
           (JObj [])
           (Sample.list_of
              [JObj [("metadata", Sample.metadata "nginx");
                     ("spec", JObj [("type", JStr "ClusterIP");
                                    ("ports", JArr [JObj [("port", JNum 80)]])])]])
           [JObj [("metadata", Sample.metadata "nginx");
                  ("spec", JObj [("type", JStr "ClusterIP");
                                 ("ports", JArr [JObj [("port", JNum 80)]])])]]
           []).
  - eexists. split; reflexivity.
  - reflexivity.
  - repeat constructor.
Defined.

(** X11.  When the upstream deployment list holds N deployment objects,
    [list_deployments] succeeds with the serialisation of N objects in the
    same order, each made of [name], [namespace], [replicas], [selector] and
    [creationTimestamp], where [replicas] groups [spec.replicas] as
    [desired] with [status.availableReplicas] as [available] and
    [status.readyReplicas] as [ready]. *)
Theorem list_deployments_projects_every_deployment_in_order :
  forall TE ME this args response deployments t,
    upstream_answer TE ME this {| name := "list_deployments"; arguments := args |}
      response ->
    prop (prop response "body") "items" = JArr deployments ->
    Forall (fun deployment => nullish deployment = false) deployments ->
    fst (CallToolRequestHandler TE ME this
           {| name := "list_deployments"; arguments := args |} t)
    = Normal
        (text_result
           (JSON_stringify
              (JArr (map (fun deployment =>
                            JObj [("name", prop (prop deployment "metadata") "name");
                                  ("namespace",
                                    prop (prop deployment "metadata") "namespace");
                                  ("replicas",
                                    JObj [("desired",
                                            prop (prop deployment "spec") "replicas");
                                          ("available",
                                            prop (prop deployment "status")
                                              "availableReplicas");
                                          ("ready",
                                            prop (prop deployment "status")
                                              "readyReplicas")]);
                                  ("selector", prop (prop deployment "spec") "selector");
                                  ("creationTimestamp",
                                    prop (prop deployment "metadata")
                                      "creationTimestamp")])
                       deployments)))).
Proof.
  intros TE ME this args response deployments t Ha Hitems Hall.
  answered Ha listDeployments_calls.
  listing TE Hanswer Hitems Hall deployment_summary_value.
Qed.

Lemma list_deployments_projects_every_deployment_in_order_witness :
  fst (CallToolRequestHandler Sample.TypeError_message Sample.McpError_message
         (Sample.answering
            (Sample.list_of
               [JObj [("metadata", Sample.metadata "nginx");
                      ("spec", JObj [("replicas", JNum 2)]);
                      ("status", JObj [("readyReplicas", JNum 1)])]]))
         {| name := "list_deployments"; arguments := JObj [] |} [])
  = Normal
      (text_result
         (JSON_stringify
            (JArr [JObj [("name", JStr "nginx");
                         ("namespace", JStr "default");
                         ("replicas",
                           JObj [("desired", JNum 2);
                                 ("available", JUndefined);
                                 ("ready", JNum 1)]);
                         ("selector", JUndefined);
                         ("creationTimestamp", JStr "2025-03-01T10:00:00.000Z")]]))).
Proof.
  apply (list_deployments_projects_every_deployment_in_order
           Sample.TypeError_message Sample.McpError_message
           (Sample.answering
              (Sample.list_of
                 [JObj [("metadata", Sample.metadata "nginx");
                        ("spec", JObj [("replicas", JNum 2)]);
                        ("status", JObj [("readyReplicas", JNum 1)])]]))
           (JObj [])
           (Sample.list_of
              [JObj [("metadata", Sample.metadata "nginx");
                     ("spec", JObj [("replicas", JNum 2)]);
                     ("status", JObj [("readyReplicas", JNum 1)])]])
           [JObj [("metadata", Sample.metadata "nginx");
                  ("spec", JObj [("replicas", JNum 2)]);
                  ("status", JObj [("readyReplicas", JNum 1)])]]
           []).
  - eexists. split; reflexivity.
  - reflexivity.
  - repeat constructor.
Defined.

(** ** A null item *)

Lemma map_each_null_item (f : JsValue -> Completion JsValue) e l :
  (forall x, nullish x = false -> exists y, f x = Normal y) ->
  (forall x, nullish x = true -> f x = Throw e) ->
  Exists (fun x => nullish x = true) l ->
  map_each f l = Throw e.
Proof.
  intros Hok Hnull. induction 1 as [x l Hx|x l _ IH]; cbn [map_each].
  - rewrite (Hnull x Hx). reflexivity.
  - destruct (nullish x) eqn:Hx.
    + rewrite (Hnull x Hx). reflexivity.
    + destruct (Hok x Hx) as (y & ->). cbn [and_then]. rewrite IH. reflexivity.
Qed.

Ltac null_item TE Hanswer Hitems Hnull summary summary_value :=
  destruct (wrapped_items _ _ Hitems) as [Hresponse Hbody];
  dispatch; apply try_catch_keeps;
  match goal with
  | |- fst (?h _ _ _ _) = _ => unfold h
  end;
  unfold try_catch, bind, await, lift, ret; cbv zeta; rewrite Hanswer;
  rewrite (member_of_value TE _ "body" Hresponse);
  rewrite (member_of_value TE _ "items" Hbody);
  rewrite Hitems; unfold Array_map;
  rewrite (map_each_null_item (summary TE) (ErrorInstance (TE "metadata")));
  [ reflexivity
  | intros x Hx; eexists; apply summary_value, Hx
  | intros x Hx; unfold summary; rewrite (member_of_null TE x "metadata" Hx);
    reflexivity
  | exact Hnull ].

(** X12.  One null item fails the whole listing: when the item list that
    answers [list_services], [list_deployments] or [list_configmaps] holds a
    [null] (or [undefined]) entry, the reply is the error envelope of the
    [TypeError] raised on reading its [metadata], not a partial list. *)
Theorem a_null_item_fails_the_listing :
  forall TE ME this tool_name args response items t,
    In tool_name ["list_services"; "list_deployments"; "list_configmaps"] ->
    upstream_answer TE ME this {| name := tool_name; arguments := args |} response ->
    prop (prop response "body") "items" = JArr items ->
    Exists (fun item => nullish item = true) items ->
    fst (CallToolRequestHandler TE ME this
           {| name := tool_name; arguments := args |} t)
    = Normal (error_result
                (JStr ("Error listing " ++ drop 5 tool_name ++ ": "
                         ++ TE "metadata"))).
Proof.
  intros TE ME this tool_name args response items t Htool Ha Hitems Hnull.
  simpl in Htool. destruct Htool as [<-|[<-|[<-|[]]]].
  - answered Ha listServices_calls.
    null_item TE Hanswer Hitems Hnull service_summary service_summary_value.
  - answered Ha listDeployments_calls.
    null_item TE Hanswer Hitems Hnull deployment_summary deployment_summary_value.
  - answered Ha listConfigMaps_calls.
    null_item TE Hanswer Hitems Hnull configmap_summary configmap_summary_value.
Qed.

Lemma a_null_item_fails_the_listing_witness :
  fst (CallToolRequestHandler Sample.TypeError_message Sample.McpError_message
         (Sample.answering
            (Sample.list_of [Sample.configmap "app-config" []; JNull]))
         {| name := "list_configmaps"; arguments := JObj [] |} [])
  = Normal (error_result
              (JStr ("Error listing " ++ drop 5 "list_configmaps" ++ ": "
                       ++ Sample.TypeError_message "metadata"))).
Proof.
  apply (a_null_item_fails_the_listing
           Sample.TypeError_message Sample.McpError_message
           (Sample.answering
              (Sample.list_of [Sample.configmap "app-config" []; JNull]))
           "list_configmaps" (JObj [])
           (Sample.list_of [Sample.configmap "app-config" []; JNull])
           [Sample.configmap "app-config" []; JNull] []).
  - simpl. tauto.
  - eexists. split; reflexivity.
  - reflexivity.
  - apply Exists_cons_tl, Exists_cons_hd. reflexivity.
Defined.

(** ** Namespaces *)

Lemma namespace_summary_value TE ns :
  nullish ns = false ->
  namespace_summary TE ns
  = Normal (JObj [("name", prop (prop ns "metadata") "name");
                  ("status", prop (prop ns "status") "phase");
                  ("creationTimestamp",
                    prop (prop ns "metadata") "creationTimestamp")]).
Proof.
  intros H. unfold namespace_summary. rewrite !(member_of_value TE ns) by exact H.
  cbn [and_then]. rewrite !opt_is_prop. reflexivity.
Qed.

(** X13.  [list_namespaces] reads the namespaces from [body.items] of the
    answer and, when there is no item list there, from [items]; from either
    place it replies with the serialisation of one object per namespace, in
    order, made of [name], [status] (the phase) and [creationTimestamp]. *)
Theorem list_namespaces_reads_either_response_shape :
  forall TE ME this args response namespaces t,
    upstream_answer TE ME this {| name := "list_namespaces"; arguments := args |}
      response ->
    truthy response = true ->
    prop (prop response "body") "items" = JArr namespaces \/
    (truthy (prop (prop response "body") "items") = false /\
     prop response "items" = JArr namespaces) ->
    Forall (fun ns => nullish ns = false) namespaces ->
    fst (CallToolRequestHandler TE ME this
           {| name := "list_namespaces"; arguments := args |} t)
    = Normal
        (text_result
           (JSON_stringify
              (JArr (map (fun ns =>
                            JObj [("name", prop (prop ns "metadata") "name");
                                  ("status", prop (prop ns "status") "phase");
                                  ("creationTimestamp",
                                    prop (prop ns "metadata") "creationTimestamp")])
                       namespaces)))).
Proof.
  intros TE ME this args response namespaces t Ha Hresponse Hshape Hall.
  answered Ha listNamespaces_calls.
  dispatch. apply try_catch_keeps.
  unfold listNamespaces, try_catch, bind, await. rewrite Hanswer. cbv zeta.
  rewrite Hresponse. cbn [negb].
  rewrite !(member_of_truthy TE response) by exact Hresponse.
  unfold lift at 1. cbv iota beta.
  assert (Hobject : nullish response = false) by (apply truthy_not_nullish, Hresponse).
  destruct Hshape as [Hwrapped|[Hnone Hdirect]].
  - destruct (wrapped_items _ _ Hwrapped) as [_ Hbody].
    assert (Htruthy : truthy (prop response "body") = true).
    { destruct (prop response "body"); try discriminate Hwrapped; reflexivity. }
    rewrite Htruthy. unfold lift, ret. cbn [and_then].
    repeat (cbv iota beta; rewrite ?(member_of_value TE) by assumption;
            rewrite ?Hwrapped; cbn [truthy]).
    erewrite Array_map_pure;
      [reflexivity | exact Hall | intros x Hx; apply namespace_summary_value, Hx].
  - destruct (truthy (prop response "body")) eqn:Hbody.
    + assert (Hbody' := truthy_not_nullish _ Hbody).
      unfold lift, ret. cbn [and_then].
      repeat (cbv iota beta; rewrite ?(member_of_value TE) by assumption;
              rewrite ?Hnone; rewrite ?Hdirect; cbn [truthy]).
      erewrite Array_map_pure;
        [reflexivity | exact Hall | intros x Hx; apply namespace_summary_value, Hx].
    + unfold lift, ret.
      repeat (cbv iota beta; rewrite ?Hbody;
              rewrite ?(member_of_value TE) by assumption;
              rewrite ?Hdirect; cbn [truthy]).
      erewrite Array_map_pure;
        [reflexivity | exact Hall | intros x Hx; apply namespace_summary_value, Hx].
Qed.

Lemma list_namespaces_reads_either_response_shape_witness :
  fst (CallToolRequestHandler Sample.TypeError_message Sample.McpError_message
         (Sample.answering
            (JObj [("items",
                     JArr [JObj [("metadata", JObj [("name", JStr "kube-system")]);
                                 ("status", JObj [("phase", JStr "Active")])]])]))
         {| name := "list_namespaces"; arguments := JUndefined |} [])
  = Normal
      (text_result
         (JSON_stringify
            (JArr [JObj [("name", JStr "kube-system");
                         ("status", JStr "Active");
                         ("creationTimestamp", JUndefined)]]))).
Proof.
  apply (list_namespaces_reads_either_response_shape
           Sample.TypeError_message Sample.McpError_message
           (Sample.answering
              (JObj [("items",
                       JArr [JObj [("metadata", JObj [("name", JStr "kube-system")]);
                                   ("status", JObj [("phase", JStr "Active")])]])]))
           JUndefined
           (JObj [("items",
                    JArr [JObj [("metadata", JObj [("name", JStr "kube-system")]);
                                ("status", JObj [("phase", JStr "Active")])]])])
           [JObj [("metadata", JObj [("name", JStr "kube-system")]);
                  ("status", JObj [("phase", JStr "Active")])]]
           []).
  - eexists. split; reflexivity.
  - reflexivity.
  - right. split; reflexivity.
  - repeat constructor.
Defined.

(** X14.  When the upstream namespace list resolves to a falsy value
    ([null], [undefined], an empty string, zero or [false]),
    [list_namespaces] replies with the error envelope
    ["Error: No response from Kubernetes API"]. *)
Theorem list_namespaces_reports_a_missing_response :
  forall TE ME this args response t,
    upstream_answer TE ME this {| name := "list_namespaces"; arguments := args |}
      response ->
    truthy response = false ->
    fst (CallToolRequestHandler TE ME this
           {| name := "list_namespaces"; arguments := args |} t)
    = Normal (error_result (JStr "Error: No response from Kubernetes API")).
Proof.
  intros TE ME this args response t Ha Hresponse.
  answered Ha listNamespaces_calls.
  dispatch. apply try_catch_keeps.
  unfold listNamespaces, try_catch, bind, await. rewrite Hanswer. cbv zeta.
  rewrite Hresponse. reflexivity.
Qed.

Lemma list_namespaces_reports_a_missing_response_witness :
  fst (CallToolRequestHandler Sample.TypeError_message Sample.McpError_message
         (Sample.answering JNull)
         {| name := "list_namespaces"; arguments := JObj [] |} [])
  = Normal (error_result (JStr "Error: No response from Kubernetes API")).
Proof.
  apply (list_namespaces_reports_a_missing_response
           Sample.TypeError_message Sample.McpError_message
           (Sample.answering JNull) (JObj []) JNull []).
  - eexists. split; reflexivity.
  - reflexivity.
Defined.

(** ** Describing one resource *)

Ltac described TE Hanswer Hname args :=
  dispatch; apply try_catch_keeps;
  match goal with
  | |- fst (?h _ _ _ _) = _ => unfold h
  end;
  rewrite Hname; cbn [negb];
  rewrite ?(member_of_value TE args) by (apply named_args_not_nullish, Hname);
  unfold try_catch, bind, await, lift, ret; rewrite Hanswer;
  match goal with
  | |- context [member TE ?response "body"] =>
      destruct (nullish response) eqn:Hresponse;
      [ rewrite (member_of_null TE response "body" Hresponse)
      | rewrite (member_of_value TE response "body" Hresponse) ]
  end; reflexivity.

(** X15.  When the upstream read of [describe_pod], [describe_service],
    [describe_deployment], [describe_configmap] or [describe_node] resolves,
    the reply is the success envelope of [JSON.stringify] of the [body] of
    the answer, whole and unprojected (its text is [undefined] when the
    answer has no [body]); when it resolves to [null] or [undefined] the
    reply is the error envelope of the [TypeError] raised on reading
    [body]. *)
Theorem describe_replies_with_the_whole_body :
  forall TE ME this tool_name args response t,
    In tool_name ["describe_pod"; "describe_service"; "describe_deployment";
                  "describe_configmap"; "describe_node"] ->
    upstream_answer TE ME this {| name := tool_name; arguments := args |} response ->
    fst (CallToolRequestHandler TE ME this
           {| name := tool_name; arguments := args |} t)
    = Normal (if nullish response
              then error_result
                     (JStr ("Error describing " ++ drop 9 tool_name ++ ": "
                              ++ TE "body"))
              else text_result (JSON_stringify (prop response "body"))).
Proof.
  intros TE ME this tool_name args response t Htool Ha.
  simpl in Htool. destruct Htool as [<-|[<-|[<-|[<-|[<-|[]]]]]].
  - answered_named Ha args describePod_calls describePod_without_name.
    described TE Hanswer Hname args.
  - answered_named Ha args describeService_calls describeService_without_name.
    described TE Hanswer Hname args.
  - answered_named Ha args describeDeployment_calls describeDeployment_without_name.
    described TE Hanswer Hname args.
  - answered_named Ha args describeConfigMap_calls describeConfigMap_without_name.
    described TE Hanswer Hname args.
  - answered_named Ha args describeNode_calls describeNode_without_name.
    described TE Hanswer Hname args.
Qed.

Lemma describe_replies_with_the_whole_body_witness :
  fst (CallToolRequestHandler Sample.TypeError_message Sample.McpError_message
         (Sample.answering (JObj [("body", Sample.ready_node)]))
         {| name := "describe_node";
            arguments := JObj [("name", JStr "minikube")] |} [])
  = Normal (text_result (JSON_stringify Sample.ready_node)).
Proof.
  apply (describe_replies_with_the_whole_body
           Sample.TypeError_message Sample.McpError_message
           (Sample.answering (JObj [("body", Sample.ready_node)]))
           "describe_node" (JObj [("name", JStr "minikube")])
           (JObj [("body", Sample.ready_node)]) []).
  - simpl. tauto.
  - eexists. split; reflexivity.
Defined.

(** ** Cluster information *)

(** X16.  When the API-resources call of [get_cluster_info] resolves to an
    object, the reply is the success envelope of the serialisation of
    [currentContext] (the current context of the kubeconfig), [clusterInfo]
    (the cluster the kubeconfig gives for that name), [apiResources] and
    [groupVersion] (the [resources] and [groupVersion] of the answer); when
    it resolves to [null] or [undefined] the reply is an error envelope and
    nothing of the kubeconfig is returned. *)
Theorem cluster_info_combines_kubeconfig_and_api_resources :
  forall TE ME this args versionInfo t,
    upstream_answer TE ME this {| name := "get_cluster_info"; arguments := args |}
      versionInfo ->
    fst (CallToolRequestHandler TE ME this
           {| name := "get_cluster_info"; arguments := args |} t)
    = Normal
        (if nullish versionInfo
         then error_result
                (JStr ("Error getting cluster info: " ++ TE "resources"))
         else text_result
                (JSON_stringify
                   (JObj [("currentContext", JStr (getCurrentContext (kc this)));
                          ("clusterInfo",
                            getCluster (kc this) (getCurrentContext (kc this)));
                          ("apiResources", prop versionInfo "resources");
                          ("groupVersion", prop versionInfo "groupVersion")]))).
Proof.
  intros TE ME this args versionInfo t Ha.
  answered Ha getClusterInfo_calls.
  dispatch. apply try_catch_keeps.
  unfold getClusterInfo, try_catch, bind, await, lift, ret. cbv zeta. rewrite Hanswer.
  destruct (nullish versionInfo) eqn:Hnull.
  - rewrite (member_of_null TE versionInfo "resources" Hnull). reflexivity.
  - rewrite !(member_of_value TE versionInfo) by exact Hnull. reflexivity.
Qed.

Lemma cluster_info_combines_kubeconfig_and_api_resources_witness :
  fst (CallToolRequestHandler Sample.TypeError_message Sample.McpError_message
         (Sample.answering (JObj [("groupVersion", JStr "v1")]))
         {| name := "get_cluster_info"; arguments := JObj [] |} [])
  = Normal
      (text_result
         (JSON_stringify
            (JObj [("currentContext", JStr "minikube");
                   ("clusterInfo",
                     JObj [("name", JStr "minikube");
                           ("server", JStr "https://192.168.49.2:8443");
                           ("skipTLSVerify", JBool false)]);
                   ("apiResources", JUndefined);
                   ("groupVersion", JStr "v1")]))).
Proof.
  apply (cluster_info_combines_kubeconfig_and_api_resources
           Sample.TypeError_message Sample.McpError_message
           (Sample.answering (JObj [("groupVersion", JStr "v1")]))
           (JObj []) (JObj [("groupVersion", JStr "v1")]) []).
  eexists. split; reflexivity.
Defined.

(** ** What is sent upstream *)

(** X17.  A namespace given in the argument bag is the namespace of the
    upstream call, as given: for [list_pods], [list_services],
    [list_deployments] and [list_configmaps] it is the first argument of
    the list call, and for [describe_pod], [describe_service],
    [describe_deployment], [describe_configmap] and [get_pod_logs] it
    follows the name. *)
Theorem given_namespace_is_forwarded :
  forall TE ME this args t,
    truthy (opt args "namespace") = true ->
    (forall tool_name m,
        In (tool_name, m) [("list_pods", listNamespacedPod);
                           ("list_services", listNamespacedService);
                           ("list_deployments", listNamespacedDeployment);
                           ("list_configmaps", listNamespacedConfigMap)] ->
        exists rest,
          snd (CallToolRequestHandler TE ME this
                 {| name := tool_name; arguments := args |} t)
          = (t ++ [{| method := m; params := prop args "namespace" :: rest |}])%list)
    /\
    (truthy (opt args "name") = true ->
     forall tool_name m,
       In (tool_name, m) [("describe_pod", readNamespacedPod);
                          ("describe_service", readNamespacedService);
                          ("describe_deployment", readNamespacedDeployment);
                          ("describe_configmap", readNamespacedConfigMap);
                          ("get_pod_logs", readNamespacedPodLog)] ->
       exists rest,
         snd (CallToolRequestHandler TE ME this
                {| name := tool_name; arguments := args |} t)
         = (t ++ [{| method := m;
                     params := prop args "name" :: prop args "namespace" :: rest |}])%list).
Proof.
  intros TE ME this args t Hns. split.
  - intros tool_name m Hin. simpl in Hin.
    destruct Hin as [E|[E|[E|[E|[]]]]]; inversion E; subst; clear E;
      eexists; dispatch; rewrite calls_try_catch by (intro; apply silent_ret).
    + rewrite listPods_calls, (or_else_present _ _ Hns), opt_is_prop. reflexivity.
    + rewrite listServices_calls, (or_else_present _ _ Hns), opt_is_prop. reflexivity.
    + rewrite listDeployments_calls, (or_else_present _ _ Hns), opt_is_prop. reflexivity.
    + rewrite listConfigMaps_calls, (or_else_present _ _ Hns), opt_is_prop. reflexivity.
  - intros Hname tool_name m Hin. simpl in Hin.
    rewrite opt_is_prop in Hns.
    destruct Hin as [E|[E|[E|[E|[E|[]]]]]]; inversion E; subst; clear E;
      eexists; dispatch; rewrite calls_try_catch by (intro; apply silent_ret).
    + rewrite describePod_calls, (or_else_present _ _ Hns) by exact Hname. reflexivity.
    + rewrite describeService_calls, (or_else_present _ _ Hns) by exact Hname. reflexivity.
    + rewrite describeDeployment_calls, (or_else_present _ _ Hns) by exact Hname. reflexivity.
    + rewrite describeConfigMap_calls, (or_else_present _ _ Hns) by exact Hname. reflexivity.
    + rewrite getPodLogs_calls, (or_else_present _ _ Hns) by exact Hname. reflexivity.
Qed.

Lemma given_namespace_is_forwarded_witness :
  exists rest,
    snd (CallToolRequestHandler Sample.TypeError_message Sample.McpError_message
           (Sample.healthy "s3cret")
           {| name := "describe_service";
              arguments := JObj [("name", JStr "kube-dns");
                                 ("namespace", JStr "kube-system")] |} [])
    = [{| method := readNamespacedService;
          params := JStr "kube-dns" :: JStr "kube-system" :: rest |}].
Proof.
  destruct (given_namespace_is_forwarded
              Sample.TypeError_message Sample.McpError_message
              (Sample.healthy "s3cret")
              (JObj [("name", JStr "kube-dns"); ("namespace", JStr "kube-system")]) [])
    as [_ Hdescribe].
  - reflexivity.
  - apply (Hdescribe eq_refl "describe_service" readNamespacedService).
    simpl. tauto.
Defined.

(** X18.  [list_services], [list_deployments], [list_configmaps] and
    [list_nodes] pass the [labelSelector] of the argument bag to their
    upstream list call as its last argument, after an [undefined] in the
    place of the parameter before it; without a [labelSelector] in the bag
    that last argument is [undefined], no filter. *)
Theorem label_selector_is_forwarded :
  forall TE ME this tool_name m args t,
    In (tool_name, m) [("list_services", listNamespacedService);
                       ("list_deployments", listNamespacedDeployment);
                       ("list_configmaps", listNamespacedConfigMap);
                       ("list_nodes", listNode)] ->
    exists before,
      snd (CallToolRequestHandler TE ME this
             {| name := tool_name; arguments := args |} t)
      = (t ++ [{| method := m;
                  params := before ++ [JUndefined; prop args "labelSelector"] |}])%list
      /\ (length before <= 1)%nat.
Proof.
  intros TE ME this tool_name m args t Hin. simpl in Hin.
  destruct Hin as [E|[E|[E|[E|[]]]]]; inversion E; subst; clear E;
    dispatch; rewrite calls_try_catch by (intro; apply silent_ret).
  - rewrite listServices_calls, (opt_is_prop args "labelSelector"). eexists [_]. split; [reflexivity | apply Nat.le_refl].
  - rewrite listDeployments_calls, (opt_is_prop args "labelSelector"). eexists [_]. split; [reflexivity | apply Nat.le_refl].
  - rewrite listConfigMaps_calls, (opt_is_prop args "labelSelector"). eexists [_]. split; [reflexivity | apply Nat.le_refl].
  - rewrite listNodes_calls, (opt_is_prop args "labelSelector"). exists []. split; [reflexivity | apply Nat.le_0_l].
Qed.

Lemma label_selector_is_forwarded_witness :
  exists before,
    snd (CallToolRequestHandler Sample.TypeError_message Sample.McpError_message
           (Sample.healthy "s3cret")
           {| name := "list_nodes";
              arguments := JObj [("labelSelector", JStr "kubernetes.io/role=master")] |}
           [])
    = [{| method := listNode;
          params := before ++ [JUndefined; JStr "kubernetes.io/role=master"] |}]
    /\ (length before <= 1)%nat.
Proof.
  apply (label_selector_is_forwarded
           Sample.TypeError_message Sample.McpError_message (Sample.healthy "s3cret")
           "list_nodes" listNode
           (JObj [("labelSelector", JStr "kubernetes.io/role=master")]) []).
  simpl. tauto.
Defined.

(** X19.  [get_pod_logs] with a name makes one upstream call,
    [readNamespacedPodLog], whose third argument is a single options object
    holding the [container] and the [tailLines] of the argument bag
    ([undefined] for the ones left out), and [describe_node] with a name
    calls [readNode] with the name alone. *)
Theorem pod_log_options_are_forwarded :
  forall TE ME this args t,
    truthy (opt args "name") = true ->
    (exists namespace,
        snd (CallToolRequestHandler TE ME this
               {| name := "get_pod_logs"; arguments := args |} t)
        = (t ++ [{| method := readNamespacedPodLog;
                    params := [prop args "name"; namespace;
                               JObj [("container", prop args "container");
                                     ("tailLines", prop args "tailLines")]] |}])%list)
    /\
    snd (CallToolRequestHandler TE ME this
           {| name := "describe_node"; arguments := args |} t)
    = (t ++ [{| method := readNode; params := [prop args "name"] |}])%list.
Proof.
  intros TE ME this args t Hname. split.
  - eexists. dispatch. rewrite calls_try_catch by (intro; apply silent_ret).
    rewrite getPodLogs_calls by exact Hname. reflexivity.
  - dispatch. rewrite calls_try_catch by (intro; apply silent_ret).
    rewrite describeNode_calls by exact Hname. reflexivity.
Qed.

Lemma pod_log_options_are_forwarded_witness :
  exists namespace,
    snd (CallToolRequestHandler Sample.TypeError_message Sample.McpError_message
           (Sample.healthy "s3cret")
           {| name := "get_pod_logs";
              arguments := JObj [("name", JStr "nginx-1"); ("tailLines", JNum 20)] |}
           [])
    = [{| method := readNamespacedPodLog;
          params := [JStr "nginx-1"; namespace;
                     JObj [("container", JUndefined); ("tailLines", JNum 20)]] |}].
Proof.
  destruct (pod_log_options_are_forwarded
              Sample.TypeError_message Sample.McpError_message
              (Sample.healthy "s3cret")
              (JObj [("name", JStr "nginx-1"); ("tailLines", JNum 20)]) [])
    as [Hlogs _].
  - reflexivity.
  - exact Hlogs.
Defined.

(** ** Malformed pod lists *)

Lemma pod_summary_of_null TE pod :
  nullish pod = true -> pod_summary TE pod = Throw (ErrorInstance (TE "metadata")).
Proof.
  intros H. unfold pod_summary. rewrite (member_of_null TE pod "metadata" H).
  reflexivity.
Qed.

(** X20.  [list_pods] answers with the connectivity hint also when the
    cluster did answer: if the call resolves to [null] or [undefined], or to
    a list holding a [null] item, the reply is the "Unable to connect"
    envelope, the same as for a rejected call. *)
Theorem list_pods_reports_a_malformed_answer_as_unreachable :
  forall TE ME this args response t,
    upstream_answer TE ME this {| name := "list_pods"; arguments := args |} response ->
    nullish response = true \/
    (exists pods,
        prop (prop response "body") "items" = JArr pods /\
        Exists (fun pod => nullish pod = true) pods) ->
    fst (CallToolRequestHandler TE ME this
           {| name := "list_pods"; arguments := args |} t)
    = Normal (error_result
                (JStr (unable_to_connect
                         (opt (getCluster (kc this) (getCurrentContext (kc this)))
                            "server")))).
Proof.
  intros TE ME this args response t Ha Hbad.
  answered Ha listPods_calls.
  dispatch. apply try_catch_keeps.
  unfold listPods, try_catch, bind, await, lift, ret. cbv zeta. rewrite Hanswer.
  unfold Object_keys.
  destruct Hbad as [Hnull|(pods & Hitems & Hpods)].
  - rewrite Hnull. reflexivity.
  - destruct (wrapped_items _ _ Hitems) as [Hresponse _].
    rewrite Hresponse, (member_of_value TE response) by exact Hresponse.
    rewrite opt_is_prop, Hitems, (or_else_present (JArr pods)) by reflexivity.
    unfold Array_map.
    rewrite (map_each_null_item (pod_summary TE) (ErrorInstance (TE "metadata")));
      [ reflexivity
      | intros x Hx; eexists; apply pod_summary_value, Hx
      | intros x Hx; apply pod_summary_of_null, Hx
      | exact Hpods ].
Qed.

Lemma list_pods_reports_a_malformed_answer_as_unreachable_witness :
  fst (CallToolRequestHandler Sample.TypeError_message Sample.McpError_message
         (Sample.answering (Sample.list_of [JNull]))
         {| name := "list_pods"; arguments := JObj [] |} [])
  = Normal (error_result
              (JStr (unable_to_connect (JStr "https://192.168.49.2:8443")))).
Proof.
  apply (list_pods_reports_a_malformed_answer_as_unreachable
           Sample.TypeError_message Sample.McpError_message
           (Sample.answering (Sample.list_of [JNull]))
           (JObj []) (Sample.list_of [JNull]) []).
  - eexists. split; reflexivity.
  - right. exists [JNull]. split; [reflexivity|].
    apply Exists_cons_hd. reflexivity.
Defined.

(** ** Nodes, as a listing *)

Lemma node_summary_fields TE node :
  nullish node = false ->
  conditions_well_formed node ->
  exists status roles,
    node_status TE node = Normal status /\
    node_roles TE node = Normal roles /\
    node_summary TE node
    = Normal (JObj [("name", prop (prop node "metadata") "name");
                    ("status", status);
                    ("roles", roles);
                    ("version",
                      prop (prop (prop node "status") "nodeInfo") "kubeletVersion");
                    ("osImage", prop (prop (prop node "status") "nodeInfo") "osImage");
                    ("kernelVersion",
                      prop (prop (prop node "status") "nodeInfo") "kernelVersion");
                    ("creationTimestamp",
                      prop (prop node "metadata") "creationTimestamp")]).
Proof.
  intros Hnode Hconditions. unfold node_summary.
  rewrite (node_status_value TE node Hnode Hconditions),
    (node_roles_value TE node Hnode), !(member_of_value TE node) by exact Hnode.
  cbn [and_then]. rewrite !opt_is_prop.
  eexists; eexists. repeat split.
Qed.

(** X21.  When the upstream node list holds N node objects (each with a
    condition list that is an array of objects, or without one),
    [list_nodes] succeeds with the serialisation of N objects in the same
    order, each made of [name], [status], [roles], [version], [osImage],
    [kernelVersion] and [creationTimestamp]: the status and the roles are
    the derived ones, the versions are read from [status.nodeInfo]. *)
Theorem list_nodes_projects_every_node_in_order :
  forall TE ME this args response nodes t,
    upstream_answer TE ME this {| name := "list_nodes"; arguments := args |} response ->
    prop (prop response "body") "items" = JArr nodes ->
    Forall (fun node => nullish node = false /\ conditions_well_formed node) nodes ->
    exists summaries,
      fst (CallToolRequestHandler TE ME this
             {| name := "list_nodes"; arguments := args |} t)
      = Normal (text_result (JSON_stringify (JArr summaries)))
      /\ Forall2
           (fun node summary =>
              exists status roles,
                node_status TE node = Normal status /\
                node_roles TE node = Normal roles /\
                summary
                = JObj [("name", prop (prop node "metadata") "name");
                        ("status", status);
                        ("roles", roles);
                        ("version",
                          prop (prop (prop node "status") "nodeInfo") "kubeletVersion");
                        ("osImage",
                          prop (prop (prop node "status") "nodeInfo") "osImage");
                        ("kernelVersion",
                          prop (prop (prop node "status") "nodeInfo") "kernelVersion");
                        ("creationTimestamp",
                          prop (prop node "metadata") "creationTimestamp")])
           nodes summaries.
Proof.
  intros TE ME this args response nodes t Ha Hitems Hall.
  answered Ha listNodes_calls.
  assert (exists summaries,
             Forall2 (fun node summary => node_summary TE node = Normal summary)
               nodes summaries /\
             Forall2
               (fun node summary =>
                  exists status roles,
                    node_status TE node = Normal status /\
                    node_roles TE node = Normal roles /\
                    summary
                    = JObj [("name", prop (prop node "metadata") "name");
                            ("status", status);
                            ("roles", roles);
                            ("version",
                              prop (prop (prop node "status") "nodeInfo")
                                "kubeletVersion");
                            ("osImage",
                              prop (prop (prop node "status") "nodeInfo") "osImage");
                            ("kernelVersion",
                              prop (prop (prop node "status") "nodeInfo")
                                "kernelVersion");
                            ("creationTimestamp",
                              prop (prop node "metadata") "creationTimestamp")])
               nodes summaries)
    as (summaries & Hrun & Hfields).
  { clear - Hall. induction Hall as [|node nodes [Hnode Hconditions] _ IH].
    - exists []. split; constructor.
    - destruct IH as (summaries & Hrun & Hfields).
      destruct (node_summary_fields TE node Hnode Hconditions)
        as (status & roles & Hstatus & Hroles & Hsummary).
      eexists (_ :: summaries). split; constructor; try assumption.
      + exact Hsummary.
      + exists status, roles. repeat split; assumption. }
  exists summaries. split; [|exact Hfields].
  destruct (wrapped_items _ _ Hitems) as [Hresponse Hbody].
  dispatch. apply try_catch_keeps.
  unfold listNodes, try_catch, bind, await, lift, ret. cbv zeta. rewrite Hanswer.
  rewrite (member_of_value TE response) by exact Hresponse.
  rewrite (member_of_value TE (prop response "body")) by exact Hbody.
  rewrite Hitems. unfold Array_map.
  rewrite (map_each_pointwise _ _ _ Hrun). reflexivity.
Qed.

Lemma list_nodes_projects_every_node_in_order_witness :
  exists summaries,
    fst (CallToolRequestHandler Sample.TypeError_message Sample.McpError_message
           (Sample.healthy "s3cret")
           {| name := "list_nodes"; arguments := JObj [] |} [])
    = Normal (text_result (JSON_stringify (JArr summaries)))
    /\ length summaries = 1.
Proof.
  destruct (list_nodes_projects_every_node_in_order
              Sample.TypeError_message Sample.McpError_message
              (Sample.healthy "s3cret") (JObj [])
              (Sample.list_of [Sample.ready_node]) [Sample.ready_node] [])
    as (summaries & Hreply & Hfields).
  - eexists. split; reflexivity.
  - reflexivity.
  - apply Forall_cons; [|apply Forall_nil].
    split; [reflexivity|].
    split; [right; eexists; reflexivity | repeat constructor].
  - exists summaries. split; [exact Hreply|].
    apply Forall2_length in Hfields. symmetry. exact Hfields.
Defined.

(** ** Pod logs of any shape *)

(** X22.  [get_pod_logs] does not serialise: whatever value the upstream
    call resolves to, string or not, is the text entry of the success
    envelope as it is. *)
Theorem pod_logs_reply_is_the_upstream_value :
  forall TE ME this args response t,
    upstream_answer TE ME this {| name := "get_pod_logs"; arguments := args |}
      response ->
    fst (CallToolRequestHandler TE ME this
           {| name := "get_pod_logs"; arguments := args |} t)
    = Normal (text_result response).
Proof.
  intros TE ME this args response t Ha.
  answered_named Ha args getPodLogs_calls getPodLogs_without_name.
  dispatch. apply try_catch_keeps.
  apply getPodLogs_passes_through; assumption.
Qed.

Lemma pod_logs_reply_is_the_upstream_value_witness :
  fst (CallToolRequestHandler Sample.TypeError_message Sample.McpError_message
         (Sample.answering (JObj [("body", JStr "started")]))
         {| name := "get_pod_logs"; arguments := JObj [("name", JStr "nginx-1")] |} [])
  = Normal (text_result (JObj [("body", JStr "started")])).
Proof.
  apply (pod_logs_reply_is_the_upstream_value
           Sample.TypeError_message Sample.McpError_message
           (Sample.answering (JObj [("body", JStr "started")]))
           (JObj [("name", JStr "nginx-1")]) (JObj [("body", JStr "started")]) []).
  eexists. split; reflexivity.
Defined.

(** ** No argument bag *)

(** X23.  An invocation without an argument bag ([arguments] is
    [undefined], or [null]) behaves as one with an empty bag, for every
    name, in the catalog or not: the same reply and the same upstream
    call. *)
Theorem a_missing_bag_is_an_empty_bag :
  forall TE ME this tool_name tr,
    CallToolRequestHandler TE ME this
      {| name := tool_name; arguments := JUndefined |} tr
    = CallToolRequestHandler TE ME this
        {| name := tool_name; arguments := JObj [] |} tr
    /\
    CallToolRequestHandler TE ME this {| name := tool_name; arguments := JNull |} tr
    = CallToolRequestHandler TE ME this
        {| name := tool_name; arguments := JObj [] |} tr.
Proof.
  intros TE ME this tool_name tr.
  destruct (descriptor tool_name) as [t|] eqn:Hd.
  - split; apply (same_declared_fields_same_run TE ME this tool_name t _ _ tr Hd);
      intros k _; reflexivity.
  - split;
      rewrite (unknown_tool_reply TE ME this {| name := tool_name; arguments := _ |}
                 tr Hd);
      symmetry;
      apply (unknown_tool_reply TE ME this
               {| name := tool_name; arguments := JObj [] |} tr Hd).
Qed.

(** ** Every tool of the catalog is served *)

Ltac one_call_made lemma :=
  dispatch; rewrite calls_try_catch by (intro; apply silent_ret);
  rewrite lemma by assumption; eexists; reflexivity.

(** X24.  Every name of the catalog reaches a handler: invoked with a name
    in the argument bag, each of the thirteen tools makes exactly one
    upstream call. *)
Theorem every_catalogued_tool_calls_upstream_once :
  forall TE ME this tool_name args t,
    In tool_name tool_names ->
    truthy (opt args "name") = true ->
    exists call,
      snd (CallToolRequestHandler TE ME this
             {| name := tool_name; arguments := args |} t)
      = (t ++ [call])%list.
Proof.
  intros TE ME this tool_name args t Hknown Hname.
  unfold tool_names, tools in Hknown. rewrite !map_cons, !name_of_tool in Hknown.
  cbn [ToString map In] in Hknown.
  repeat (destruct Hknown as [<-|Hknown]); try contradiction.
  - one_call_made getClusterInfo_calls.
  - one_call_made listPods_calls.
  - one_call_made listServices_calls.
  - one_call_made listDeployments_calls.
  - one_call_made describePod_calls.
  - one_call_made describeService_calls.
  - one_call_made describeDeployment_calls.
  - one_call_made getPodLogs_calls.
  - one_call_made listNamespaces_calls.
  - one_call_made listNodes_calls.
  - one_call_made describeNode_calls.
  - one_call_made listConfigMaps_calls.
  - one_call_made describeConfigMap_calls.
Qed.

Lemma every_catalogued_tool_calls_upstream_once_witness :
  exists call,
    snd (CallToolRequestHandler Sample.TypeError_message Sample.McpError_message
           Sample.forbidding
           {| name := "describe_configmap";
              arguments := JObj [("name", JStr "app-config")] |} [])
    = [call].
Proof.
  apply (every_catalogued_tool_calls_upstream_once
           Sample.TypeError_message Sample.McpError_message Sample.forbidding
           "describe_configmap" (JObj [("name", JStr "app-config")]) []).
  - simpl. tauto.
  - reflexivity.
Defined.
